(** * chipchat: the LLM model adapter ([src/models/llm.py])

    A shallow embedding of the class [LLMModel] and a verification of its
    contract: construction and dispatch on the model type, credential
    rotation, and the normalisation of response text.

    Python objects are mutable, so the methods are written in a state and
    exception monad over the attributes of [self] and the store of client
    objects.  The constructors of the client libraries are a parameter: they
    may raise on the arguments the adapter passes.  Response text is a sequence of Unicode code points, and the
    UTF-8 codec the normalisation goes through is modelled byte by byte. *)

From Stdlib Require Import ZArith Lia Floats.PrimFloat.
From stdpp Require Import gmap strings list.

Local Open Scope Z_scope.

(** ** Exceptions and results *)

Inductive exn : Type :=
  | KeyError (key : string)
  | ValueError (msg : string)
  | AttributeError (name : string)
  | UnicodeDecodeError
  | ClientError (name : string).

Inductive result (A : Type) : Type :=
  | Ok (a : A)
  | Raise (e : exn).

Arguments Ok {A} a.
Arguments Raise {A} e.

(** ** Text: Python [str] and [bytes]

    A [str] is a sequence of code points [0 .. 0x10FFFF]; lone surrogates
    ([0xD800 .. 0xDFFF]) are allowed in a [str] but have no UTF-8 encoding.
    A [bytes] is a sequence of integers [0 .. 255]. *)

Definition str := list Z.
Definition bytes := list Z.

Definition is_code_point (c : Z) : Prop := 0 <= c <= 0x10FFFF.
Definition is_str (s : str) : Prop := Forall is_code_point s.

Definition is_surrogate (c : Z) : bool := (0xD800 <=? c) && (c <=? 0xDFFF).

Definition EN_DASH : Z := 0x2013.
Definition EM_DASH : Z := 0x2014.
Definition HYPHEN_MINUS : Z := 0x2D.
Definition QUESTION_MARK : Z := 0x3F.

(** The UTF-8 bytes of one code point, [None] for a surrogate. *)
Definition utf8_encode_char (c : Z) : option bytes :=
  if c <? 0x80 then Some [c]
  else if c <? 0x800 then Some [0xC0 + c / 64; 0x80 + c mod 64]
  else if c <? 0x10000 then
    if is_surrogate c then None
    else Some [0xE0 + c / 4096; 0x80 + (c / 64) mod 64; 0x80 + c mod 64]
  else Some [0xF0 + c / 262144; 0x80 + (c / 4096) mod 64;
             0x80 + (c / 64) mod 64; 0x80 + c mod 64].

(** [s.encode('utf-8', errors='replace')]: a code point that cannot be
    encoded becomes the byte of ["?"]. *)
Fixpoint encode_utf8_replace (s : str) : bytes :=
  match s with
  | [] => []
  | c :: s' =>
      match utf8_encode_char c with
      | Some bs => bs ++ encode_utf8_replace s'
      | None => QUESTION_MARK :: encode_utf8_replace s'
      end
  end.

(** [s.encode('utf-8')] with the default [errors='strict']. *)
Fixpoint encode_utf8_strict (s : str) : option bytes :=
  match s with
  | [] => Some []
  | c :: s' =>
      match utf8_encode_char c, encode_utf8_strict s' with
      | Some bs, Some r => Some (bs ++ r)
      | _, _ => None
      end
  end.

Definition is_continuation (b : Z) : bool := (0x80 <=? b) && (b <=? 0xBF).

(** Bounds on the second byte of a sequence, by its lead byte: they exclude
    overlong forms, surrogates and code points above [0x10FFFF]. *)
Definition second_lo (b1 : Z) : Z :=
  if b1 =? 0xE0 then 0xA0 else if b1 =? 0xF0 then 0x90 else 0x80.
Definition second_hi (b1 : Z) : Z :=
  if b1 =? 0xED then 0x9F else if b1 =? 0xF4 then 0x8F else 0xBF.
Definition is_second (b1 b2 : Z) : bool :=
  (second_lo b1 <=? b2) && (b2 <=? second_hi b1).

(** [b.decode('utf-8')] with the default [errors='strict']: [None] stands
    for [UnicodeDecodeError]. *)
Fixpoint decode_utf8 (bs : bytes) : option str :=
  match bs with
  | [] => Some []
  | b1 :: r1 =>
      if (0 <=? b1) && (b1 <? 0x80) then
        cons b1 <$> decode_utf8 r1
      else if (0xC2 <=? b1) && (b1 <=? 0xDF) then
        match r1 with
        | b2 :: r2 =>
            if is_continuation b2
            then cons ((b1 - 0xC0) * 64 + (b2 - 0x80)) <$> decode_utf8 r2
            else None
        | _ => None
        end
      else if (0xE0 <=? b1) && (b1 <=? 0xEF) then
        match r1 with
        | b2 :: b3 :: r3 =>
            if is_second b1 b2 && is_continuation b3
            then cons ((b1 - 0xE0) * 4096 + (b2 - 0x80) * 64 + (b3 - 0x80))
                   <$> decode_utf8 r3
            else None
        | _ => None
        end
      else if (0xF0 <=? b1) && (b1 <=? 0xF4) then
        match r1 with
        | b2 :: b3 :: b4 :: r4 =>
            if is_second b1 b2 && is_continuation b3 && is_continuation b4
            then cons ((b1 - 0xF0) * 262144 + (b2 - 0x80) * 4096
                       + (b3 - 0x80) * 64 + (b4 - 0x80))
                   <$> decode_utf8 r4
            else None
        | _ => None
        end
      else None
  end.

(** [s.replace(old, new)]: every non-overlapping occurrence of [old], from
    the left, becomes [new]; an empty [old] occurs before every character and
    at the end.  An occurrence of a non-empty [old] consumes at least one
    character, so the length of [s] is enough fuel. *)
Fixpoint strip_prefix (p s : str) : option str :=
  match p, s with
  | [], _ => Some s
  | a :: p', b :: s' => if a =? b then strip_prefix p' s' else None
  | _ :: _, [] => None
  end.

Fixpoint replace_from (fuel : nat) (old new s : str) : str :=
  match fuel, s with
  | O, _ => s
  | _, [] => []
  | S fuel', c :: s' =>
      match strip_prefix old s with
      | Some rest => new ++ replace_from fuel' old new rest
      | None => c :: replace_from fuel' old new s'
      end
  end.

Definition str_replace (s old new : str) : str :=
  match old with
  | [] => new ++ flat_map (fun c => c :: new) s
  | _ :: _ => replace_from (length s) old new s
  end.

(** ** Configuration and the client collaborators *)

(** Modelled from the spec: the record type of the entries of [LLM_CONFIG]
    ([config/settings.py]): a model name, a temperature and a token budget. *)
Record Config : Type := mkConfig {
  model_name : string;
  temperature : float;
  max_tokens : Z
}.

(** Modelled from the spec: the client objects of the two client libraries
    ([langchain_openai], [langchain_anthropic]), whose constructors take a
    model name, a temperature, a token budget, a credential and a timeout.
    A client object records its class and the keyword arguments it was
    created with. *)
Inductive client_class : Type := OpenAIChat | AnthropicChat.

Record Client : Type := mkClient {
  client_class_of : client_class;
  client_model_name : string;
  client_temperature : float;
  client_max_tokens : Z;
  client_api_key : option string;
  client_timeout : float
}.

(** Modelled from the spec: what the constructors of the client libraries do
    with their arguments is the libraries' own, and they may refuse them and
    raise (a credential that is missing or empty when the environment holds
    none, for one; the exception is one of the library, [ClientError], or any
    other).  [constructor_error c] is the exception the constructor of the
    class of [c] raises on the arguments of [c], or [None] when it returns
    the client. *)
Class ClientLibrary : Type := {
  constructor_error : Client -> option exn
}.

(** ** The object store

    Client objects live in a store; a handle is the position of its object,
    so two handles are the same object exactly when they are equal.  The
    adapter instance is [self]: an attribute is [None] until [__init__] has
    assigned it. *)
Definition handle := nat.

Record LLMModel_attrs : Type := mkAttrs {
  model_type : option string;
  config : option Config;
  api_key : option (option string);
  model : option handle
}.

Record state : Type := mkState {
  self : LLMModel_attrs;
  store : list Client
}.

Definition M (A : Type) : Type := state -> result A * state.

Definition ret {A} (a : A) : M A := fun σ => (Ok a, σ).

Definition bind {A B} (m : M A) (k : A -> M B) : M B :=
  fun σ =>
    match m σ with
    | (Ok a, σ') => k a σ'
    | (Raise e, σ') => (Raise e, σ')
    end.

Definition raise {A} (e : exn) : M A := fun σ => (Raise e, σ).

Notation "x <- m ;; k" := (bind m (fun x => k))
  (at level 100, m at next level, right associativity).
Notation "m ;;; k" := (bind m (fun _ => k))
  (at level 100, right associativity).

Definition getattr {A} (name : string) (field : LLMModel_attrs -> option A)
    : M A :=
  fun σ =>
    match field (self σ) with
    | Some a => (Ok a, σ)
    | None => (Raise (AttributeError name), σ)
    end.

Definition setattr (f : LLMModel_attrs -> LLMModel_attrs) : M unit :=
  fun σ => (Ok tt, mkState (f (self σ)) (store σ)).

Definition set_model_type (v : string) (a : LLMModel_attrs) :=
  mkAttrs (Some v) (config a) (api_key a) (model a).
Definition set_config (v : Config) (a : LLMModel_attrs) :=
  mkAttrs (model_type a) (Some v) (api_key a) (model a).
Definition set_api_key (v : option string) (a : LLMModel_attrs) :=
  mkAttrs (model_type a) (config a) (Some v) (model a).
Definition set_model (v : handle) (a : LLMModel_attrs) :=
  mkAttrs (model_type a) (config a) (api_key a) (Some v).

(** Creating an object: it is put at the end of the store. *)
Definition new_object (c : Client) : M handle :=
  fun σ => (Ok (length (store σ)), mkState (self σ) (store σ ++ [c])).

(** Modelled from the spec: a constructor of a client library either raises
    on its arguments, and then creates nothing, or returns a new client
    object. *)
Definition new_client {lib : ClientLibrary} (c : Client) : M handle :=
  match constructor_error c with
  | Some e => raise e
  | None => new_object c
  end.

(** Modelled from the spec: the constructor [ChatOpenAI] of
    [langchain_openai], with the keyword arguments the adapter passes. *)
Definition ChatOpenAI {lib : ClientLibrary} (model_name : string)
    (temperature : float) (max_tokens : Z) (api_key : option string)
    (request_timeout : float) : M handle :=
  new_client
    (mkClient OpenAIChat model_name temperature max_tokens api_key
       request_timeout).

(** Modelled from the spec: the constructor [ChatAnthropic] of
    [langchain_anthropic], with the keyword arguments the adapter passes. *)
Definition ChatAnthropic {lib : ClientLibrary} (model_name : string)
    (temperature : float) (max_tokens : Z)
    (anthropic_api_key : option string) (timeout : float) : M handle :=
  new_client
    (mkClient AnthropicChat model_name temperature max_tokens
       anthropic_api_key timeout).

(** [d[key]] on a dictionary. *)
Definition getitem {V} (d : gmap string V) (key : string) : M V :=
  match d !! key with
  | Some v => ret v
  | None => raise (KeyError key)
  end.

(** ** The class [LLMModel] *)

Module LLMModel.

Definition default_model_type : string := "gpt4".
Definition default_api_key : option string := None.

Section Methods.

(** The client libraries [llm.py] imports. *)
Context {lib : ClientLibrary}.

(** The table [LLM_CONFIG] of [config/settings.py], which [llm.py] imports. *)
Variable LLM_CONFIG : gmap string Config.

Definition _initialize_model : M handle :=
  let request_timeout := 600%float in
  model_type <- getattr "model_type" model_type ;;
  if decide (model_type = "gpt4") then
    config <- getattr "config" config ;;
    api_key <- getattr "api_key" api_key ;;
    ChatOpenAI (model_name config) (temperature config) (max_tokens config)
      api_key request_timeout
  else if decide (model_type = "claude") then
    config <- getattr "config" config ;;
    api_key <- getattr "api_key" api_key ;;
    ChatAnthropic (model_name config) (temperature config) (max_tokens config)
      api_key request_timeout
  else
    raise (ValueError ("Unsupported model type: " +:+ model_type)).

Definition __init__ (model_type : string) (api_key : option string)
    : M unit :=
  setattr (set_model_type model_type) ;;;
  config <- getitem LLM_CONFIG model_type ;;
  setattr (set_config config) ;;;
  setattr (set_api_key api_key) ;;;
  model <- _initialize_model ;;
  setattr (set_model model).

Definition get_model : M handle :=
  getattr "model" model.

Definition update_api_key (api_key : string) : M unit :=
  setattr (set_api_key (Some api_key)) ;;;
  model <- _initialize_model ;;
  setattr (set_model model).

Definition process_response (response_content : str) : M str :=
  response_content <-
    match decode_utf8 (encode_utf8_replace response_content) with
    | Some s => ret s
    | None => raise UnicodeDecodeError
    end ;;
  let response_content :=
    str_replace (str_replace response_content [EN_DASH] [HYPHEN_MINUS])
      [EM_DASH] [HYPHEN_MINUS; HYPHEN_MINUS] in
  ret response_content.

(** The call [LLMModel(model_type, api_key)]: an object without attributes
    is created and [__init__] runs on it; an argument that is left out takes
    its default.  When [__init__] raises, no object is returned. *)
Definition no_attrs : LLMModel_attrs := mkAttrs None None None None.

Definition construct (model_type : string) (api_key : option string)
    (objects : list Client) : result state :=
  match __init__ model_type api_key (mkState no_attrs objects) with
  | (Ok _, σ) => Ok σ
  | (Raise e, _) => Raise e
  end.

Definition call (model_type : option string)
    (api_key : option (option string)) (objects : list Client)
    : result state :=
  construct (default default_model_type model_type)
    (default default_api_key api_key) objects.

(** ** Reachable states *)

(** What a caller can do with an adapter. *)
Inductive operation : Type :=
  | GetClient
  | UpdateCredential (new_credential : string)
  | NormalizeResponseText (text : str).

(** The state an operation leaves, whether it returns or raises. *)
Definition after (op : operation) (σ : state) : state :=
  match op with
  | GetClient => snd (get_model σ)
  | UpdateCredential k => snd (update_api_key k σ)
  | NormalizeResponseText s => snd (process_response s σ)
  end.

Inductive reachable : state -> Prop :=
  | reachable_construct model_type api_key objects σ :
      construct model_type api_key objects = Ok σ -> reachable σ
  | reachable_after op σ :
      reachable σ -> reachable (after op σ).

(** The client the handle of [self] refers to. *)
Definition current_client (σ : state) : option Client :=
  h ← model (self σ); store σ !! h.

(** The handle agrees with the stored provider identifier, configuration and
    credential. *)
Definition agrees (model_type : string) (config : Config)
    (api_key : option string) (c : Client) : Prop :=
  (model_type = "gpt4" /\ client_class_of c = OpenAIChat
   \/ model_type = "claude" /\ client_class_of c = AnthropicChat)
  /\ client_model_name c = model_name config
  /\ client_temperature c = temperature config
  /\ client_max_tokens c = max_tokens config
  /\ client_api_key c = api_key
  /\ client_timeout c = 600%float.

Definition consistent (σ : state) : Prop :=
  exists mt cfg key c,
    model_type (self σ) = Some mt
    /\ LLM_CONFIG !! mt = Some cfg
    /\ config (self σ) = Some cfg
    /\ api_key (self σ) = Some key
    /\ current_client σ = Some c
    /\ agrees mt cfg key c.

(** The handle refers to a client of the stored provider identifier and
    configuration record, whatever credential it was created with. *)
Definition provider_consistent (σ : state) : Prop :=
  exists mt cfg key c,
    model_type (self σ) = Some mt
    /\ LLM_CONFIG !! mt = Some cfg
    /\ config (self σ) = Some cfg
    /\ api_key (self σ) = Some key
    /\ current_client σ = Some c
    /\ agrees mt cfg (client_api_key c) c.

End Methods.

End LLMModel.

(** ** What the normalisation is expected to compute *)

(** The code point a round trip through UTF-8 with [errors='replace']
    leaves in the place of [c]. *)
Definition repaired (c : Z) : Z :=
  if is_surrogate c then QUESTION_MARK else c.

(** The text one code point of the input becomes: the replacement marker for
    a code point without an encoding, ["-"] for an en dash, ["--"] for an em
    dash, and the code point itself otherwise. *)
Definition normalize_char (c : Z) : str :=
  if is_surrogate c then [QUESTION_MARK]
  else if c =? EN_DASH then [HYPHEN_MINUS]
  else if c =? EM_DASH then [HYPHEN_MINUS; HYPHEN_MINUS]
  else [c].

Definition normalized (s : str) : str := flat_map normalize_char s.

(** A code point the normalisation leaves as it is. *)
Definition is_plain (c : Z) : Prop :=
  is_code_point c /\ is_surrogate c = false /\ c <> EN_DASH /\ c <> EM_DASH.

(** The replacement of one code point by a text. *)
Definition replace_char (old : Z) (new : str) (s : str) : str :=
  flat_map (fun c => if old =? c then new else [c]) s.

(** ** A configuration table to run the adapter on *)

(** Modelled from the spec: the table [LLM_CONFIG] of [config/settings.py],
    which has the two keys ["gpt4"] and ["claude"]; the values of the two
    records are examples (a temperature in [[0, 2]], a positive token
    budget). *)
Definition sample_config : gmap string Config :=
  <["gpt4" := mkConfig "gpt-4" 0.5 4096]>
    (<["claude" := mkConfig "claude-3" 0.5 4096]> ∅).

(** ["café – 2024 — test"], with an en dash and an em dash. *)
Definition cafe_text : str :=
  [99; 97; 102; 233; 32; EN_DASH; 32; 50; 48; 50; 52; 32; EM_DASH; 32;
   116; 101; 115; 116].

(** ["café - 2024 -- test"]. *)
Definition cafe_normalized : str :=
  [99; 97; 102; 233; 32; 45; 32; 50; 48; 50; 52; 32; 45; 45; 32;
   116; 101; 115; 116].

(** ** What the handle is expected to be *)

Definition supported (model_type : string) : Prop :=
  model_type = "gpt4" \/ model_type = "claude".

(** The client object for a supported provider, its configuration record
    and a credential. *)
Definition expected_client (model_type : string) (config : Config)
    (api_key : option string) : Client :=
  mkClient (if decide (model_type = "gpt4") then OpenAIChat else AnthropicChat)
    (model_name config) (temperature config) (max_tokens config)
    api_key 600%float.

(** Modelled from the spec: the resolution of a default key is the client
    constructor's.  This is a client library in an environment without a key
    for [ChatOpenAI]: the constructor raises when it is given no credential
    or an empty one, and returns a client otherwise.  ([ChatAnthropic] is
    left to accept every credential here.) *)
Definition rejects_key (api_key : option string) : bool :=
  match api_key with
  | None => true
  | Some k => bool_decide (k = "")
  end.

(** Modelled from the spec: see [rejects_key]. *)
Definition no_environment_key : ClientLibrary :=
  {| constructor_error c :=
       match client_class_of c with
       | OpenAIChat =>
           if rejects_key (client_api_key c)
           then Some (ClientError "OpenAIError")
           else None
       | AnthropicChat => None
       end |}.

(** The adapter after [LLMModel("gpt4", "key1")] on the table above, in an
    empty store. *)
Definition sample_state : state :=
  mkState
    (mkAttrs (Some "gpt4") (Some (mkConfig "gpt-4" 0.5 4096))
       (Some (Some "key1")) (Some 0%nat))
    [mkClient OpenAIChat "gpt-4" 0.5 4096 (Some "key1") 600%float].

(** An adapter whose provider identifier was overwritten after its
    construction with ["gpt4"] and the credential ["key1"]: none of the three
    operations of an adapter leads here. *)
Definition corrupted_state : state :=
  mkState
    (mkAttrs (Some "gemini") (Some (mkConfig "gpt-4" 0.5 4096))
       (Some (Some "key1")) (Some 0%nat))
    [mkClient OpenAIChat "gpt-4" 0.5 4096 (Some "key1") 600%float].

(** ** Sequences of operations *)

(** The state after the operations [ops], run from left to right. *)
Definition after_all {lib : ClientLibrary} (ops : list LLMModel.operation)
    (σ : state) : state :=
  foldl (fun σ op => LLMModel.after op σ) σ ops.

(** The credential a sequence of operations is expected to leave: the one of
    its last credential update, or the one before it when it has none. *)
Definition last_credential (initial : option string)
    (ops : list LLMModel.operation) : option string :=
  foldl
    (fun key op =>
       match op with
       | LLMModel.UpdateCredential k => Some k
       | _ => key
       end)
    initial ops.

(** Whether the constructor of the provider returns a client for the
    credential [k]. *)
Definition builds {lib : ClientLibrary} (model_type : string)
    (config : Config) (k : option string) : bool :=
  match constructor_error (expected_client model_type config k) with
  | None => true
  | Some _ => false
  end.

(** The credential of the client a sequence of operations is expected to
    leave: the one of its last credential update for which the constructor
    returned, or the one before it when it has none. *)
Definition built_credential {lib : ClientLibrary} (model_type : string)
    (config : Config) (initial : option string)
    (ops : list LLMModel.operation) : option string :=
  foldl
    (fun key op =>
       match op with
       | LLMModel.UpdateCredential k =>
           if builds model_type config (Some k) then Some k else key
       | _ => key
       end)
    initial ops.

(** The number of credential updates of a sequence of operations for which
    the constructor returns. *)
Fixpoint count_built {lib : ClientLibrary} (model_type : string)
    (config : Config) (ops : list LLMModel.operation) : nat :=
  match ops with
  | [] => O
  | LLMModel.UpdateCredential k :: ops' =>
      if builds model_type config (Some k)
      then S (count_built model_type config ops')
      else count_built model_type config ops'
  | _ :: ops' => count_built model_type config ops'
  end.

(** A code point the normalisation changes: a surrogate or one of the two
    dashes. *)
Definition is_special (c : Z) : bool :=
  is_surrogate c || (c =? EN_DASH) || (c =? EM_DASH).

(** A text with a lone surrogate and a code point outside the basic plane
    in front of the text of the example above. *)
Definition mixed_text : str := 0xDFFF :: 0x1F600 :: cafe_text.

(** A configuration table with an entry beside the two the adapter
    dispatches on. *)
Definition wider_config : gmap string Config :=
  <["gemini" := mkConfig "gemini-pro" 0.5 2048]> sample_config.

(** * Verification *)

(** ** The UTF-8 codec *)

(** Decide the comparisons on [b] that occur in the goal. *)
Ltac cases_on b :=
  repeat match goal with
  | |- context [?a <=? b] => destruct (Z.leb_spec a b); try lia
  | |- context [b <=? ?a] => destruct (Z.leb_spec b a); try lia
  | |- context [b <? ?a] => destruct (Z.ltb_spec b a); try lia
  | |- context [b =? ?a] => destruct (Z.eqb_spec b a); try lia
  end; cbn [andb].

Lemma decode_utf8_1 b r :
  0 <= b < 0x80 -> decode_utf8 (b :: r) = cons b <$> decode_utf8 r.
Proof. intros Hb. cbn [decode_utf8]. cases_on b. reflexivity. Qed.

Lemma decode_utf8_2 b1 b2 r :
  0xC2 <= b1 <= 0xDF -> 0x80 <= b2 <= 0xBF ->
  decode_utf8 (b1 :: b2 :: r)
  = cons ((b1 - 0xC0) * 64 + (b2 - 0x80)) <$> decode_utf8 r.
Proof.
  intros H1 H2. cbn [decode_utf8]. cases_on b1.
  unfold is_continuation. cases_on b2. reflexivity.
Qed.

Lemma decode_utf8_3 b1 b2 b3 r :
  0xE0 <= b1 <= 0xEF -> second_lo b1 <= b2 <= second_hi b1 ->
  0x80 <= b3 <= 0xBF ->
  decode_utf8 (b1 :: b2 :: b3 :: r)
  = cons ((b1 - 0xE0) * 4096 + (b2 - 0x80) * 64 + (b3 - 0x80))
      <$> decode_utf8 r.
Proof.
  intros H1 H2 H3. cbn [decode_utf8]. cases_on b1.
  unfold is_second, is_continuation. cases_on b2. cases_on b3. reflexivity.
Qed.

Lemma decode_utf8_4 b1 b2 b3 b4 r :
  0xF0 <= b1 <= 0xF4 -> second_lo b1 <= b2 <= second_hi b1 ->
  0x80 <= b3 <= 0xBF -> 0x80 <= b4 <= 0xBF ->
  decode_utf8 (b1 :: b2 :: b3 :: b4 :: r)
  = cons ((b1 - 0xF0) * 262144 + (b2 - 0x80) * 4096
          + (b3 - 0x80) * 64 + (b4 - 0x80)) <$> decode_utf8 r.
Proof.
  intros H1 H2 H3 H4. cbn [decode_utf8]. cases_on b1.
  unfold is_second, is_continuation. cases_on b2. cases_on b3. cases_on b4.
  reflexivity.
Qed.

(** Decoding the bytes of one code point gives the code point back, or the
    question mark where a surrogate was replaced. *)
Lemma decode_encoded_char c rest :
  is_code_point c ->
  decode_utf8
    (match utf8_encode_char c with
     | Some bs => bs ++ rest
     | None => QUESTION_MARK :: rest
     end)
  = cons (repaired c) <$> decode_utf8 rest.
Proof.
  unfold is_code_point, repaired, utf8_encode_char, is_surrogate.
  intros Hc.
  assert (Q2 : c / 4096 = c / 64 / 64)
    by (rewrite Z.div_div by lia; reflexivity).
  assert (Q3 : c / 262144 = c / 4096 / 64)
    by (rewrite Z.div_div by lia; reflexivity).
  pose proof (Z.div_mod c 64 ltac:(lia)) as E1.
  pose proof (Z.mod_pos_bound c 64 ltac:(lia)) as B1.
  pose proof (Z.div_mod (c / 64) 64 ltac:(lia)) as E2.
  pose proof (Z.mod_pos_bound (c / 64) 64 ltac:(lia)) as B2.
  pose proof (Z.div_mod (c / 4096) 64 ltac:(lia)) as E3.
  pose proof (Z.mod_pos_bound (c / 4096) 64 ltac:(lia)) as B3.
  rewrite <- Q2 in E2. rewrite <- Q3 in E3. clear Q2 Q3.
  set (q3 := c / 262144) in *. set (m3 := (c / 4096) mod 64) in *.
  set (q2 := c / 4096) in *. set (m2 := (c / 64) mod 64) in *.
  set (q1 := c / 64) in *. set (m1 := c mod 64) in *.
  clearbody q3 m3 q2 m2 q1 m1.
  destruct (Z.ltb_spec c 0x80) as [L1|L1]; cbn [app].
  { rewrite decode_utf8_1 by lia. cases_on c. reflexivity. }
  destruct (Z.ltb_spec c 0x800) as [L2|L2]; cbn [app].
  { rewrite decode_utf8_2 by lia. cases_on c. f_equal. f_equal. lia. }
  destruct (Z.ltb_spec c 0x10000) as [L3|L3]; cbn [app].
  - destruct (Z.leb_spec 0xD800 c) as [S1|S1];
      destruct (Z.leb_spec c 0xDFFF) as [S2|S2]; cbn [andb app].
    + apply decode_utf8_1. unfold QUESTION_MARK. lia.
    + rewrite decode_utf8_3; unfold second_lo, second_hi;
        try cases_on (0xE0 + q2); try lia.
      f_equal. f_equal. lia.
    + rewrite decode_utf8_3; unfold second_lo, second_hi;
        try cases_on (0xE0 + q2); try lia.
      f_equal. f_equal. lia.
    + lia.
  - assert (S1 : (0xD800 <=? c) && (c <=? 0xDFFF) = false)
      by (cases_on c; reflexivity).
    rewrite S1.
    rewrite decode_utf8_4; unfold second_lo, second_hi;
      try cases_on (0xF0 + q3); try lia.
    f_equal. f_equal. lia.
Qed.

(** The round trip [s.encode('utf-8', errors='replace').decode('utf-8')]
    never raises and replaces exactly the surrogates. *)
Lemma decode_encode_replace s :
  is_str s -> decode_utf8 (encode_utf8_replace s) = Some (map repaired s).
Proof.
  induction 1 as [|c s Hc Hs IH]; [reflexivity|].
  cbn [encode_utf8_replace map].
  rewrite decode_encoded_char by assumption. rewrite IH. reflexivity.
Qed.

Lemma encode_char_None c :
  utf8_encode_char c = None -> is_surrogate c = true.
Proof.
  unfold utf8_encode_char.
  destruct (c <? 0x80), (c <? 0x800), (c <? 0x10000), (is_surrogate c);
    congruence.
Qed.

Lemma encode_strict_replace s :
  Forall (fun c => is_surrogate c = false) s ->
  encode_utf8_strict s = Some (encode_utf8_replace s).
Proof.
  induction 1 as [|c s Hc Hs IH]; [reflexivity|].
  cbn [encode_utf8_strict encode_utf8_replace]. rewrite IH.
  destruct (utf8_encode_char c) eqn:E; [reflexivity|].
  apply encode_char_None in E. congruence.
Qed.

(** The encoder writes bytes. *)
Lemma encode_char_bytes c bs :
  is_code_point c -> utf8_encode_char c = Some bs ->
  Forall (fun b => 0 <= b <= 255) bs.
Proof.
  unfold is_code_point, utf8_encode_char. intros Hc.
  pose proof (Z.mod_pos_bound c 64 ltac:(lia)).
  pose proof (Z.mod_pos_bound (c / 64) 64 ltac:(lia)).
  pose proof (Z.mod_pos_bound (c / 4096) 64 ltac:(lia)).
  assert (0 <= c / 64) by (apply Z.div_pos; lia).
  assert (0 <= c / 4096) by (apply Z.div_pos; lia).
  assert (0 <= c / 262144) by (apply Z.div_pos; lia).
  destruct (Z.ltb_spec c 0x80); [intros [= <-]; repeat constructor; lia|].
  destruct (Z.ltb_spec c 0x800).
  { assert (c / 64 < 32) by (apply Z.div_lt_upper_bound; lia).
    intros [= <-]. repeat constructor; lia. }
  destruct (Z.ltb_spec c 0x10000).
  { assert (c / 4096 < 16) by (apply Z.div_lt_upper_bound; lia).
    destruct (is_surrogate c); [discriminate|].
    intros [= <-]. repeat constructor; lia. }
  assert (c / 262144 < 5) by (apply Z.div_lt_upper_bound; lia).
  intros [= <-]. repeat constructor; lia.
Qed.

Lemma encode_utf8_replace_bytes s :
  is_str s -> Forall (fun b => 0 <= b <= 255) (encode_utf8_replace s).
Proof.
  induction 1 as [|c s Hc Hs IH]; [constructor|].
  cbn [encode_utf8_replace].
  destruct (utf8_encode_char c) as [bs|] eqn:E.
  - apply Forall_app. split; [|exact IH]. eapply encode_char_bytes; eassumption.
  - constructor; [unfold QUESTION_MARK; lia | exact IH].
Qed.

(** ** Replacement of a one-character pattern *)

Lemma replace_from_char fuel a new s :
  (length s <= fuel)%nat -> replace_from fuel [a] new s = replace_char a new s.
Proof.
  revert s. induction fuel as [|fuel IH]; intros [|c s] Hlen;
    cbn [length] in Hlen; try reflexivity; try lia.
  cbn [replace_from strip_prefix replace_char flat_map].
  destruct (a =? c); cbn [app]; rewrite IH by lia; reflexivity.
Qed.

Lemma str_replace_char s a new :
  str_replace s [a] new = replace_char a new s.
Proof. apply replace_from_char. lia. Qed.

Lemma replace_char_app old new s t :
  replace_char old new (s ++ t)
  = replace_char old new s ++ replace_char old new t.
Proof. apply flat_map_app. Qed.

(** The two replacements after the repair, one code point at a time. *)
Lemma replace_repaired_char c :
  replace_char EM_DASH [HYPHEN_MINUS; HYPHEN_MINUS]
    (replace_char EN_DASH [HYPHEN_MINUS] [repaired c])
  = normalize_char c.
Proof.
  unfold replace_char, repaired, normalize_char, is_surrogate,
    EN_DASH, EM_DASH, HYPHEN_MINUS, QUESTION_MARK.
  destruct (Z.leb_spec 0xD800 c); destruct (Z.leb_spec c 0xDFFF);
    cbn [andb flat_map app]; try reflexivity;
    destruct (Z.eqb_spec 0x2013 c); destruct (Z.eqb_spec c 0x2013); try lia;
    cbn [flat_map app]; try reflexivity;
    destruct (Z.eqb_spec 0x2014 c); destruct (Z.eqb_spec c 0x2014); try lia;
    reflexivity.
Qed.

Lemma replace_repaired s :
  str_replace (str_replace (map repaired s) [EN_DASH] [HYPHEN_MINUS])
    [EM_DASH] [HYPHEN_MINUS; HYPHEN_MINUS]
  = normalized s.
Proof.
  rewrite !str_replace_char. unfold normalized.
  induction s as [|c s IH]; [reflexivity|].
  change (map repaired (c :: s)) with ([repaired c] ++ map repaired s).
  rewrite !replace_char_app, IH, replace_repaired_char. reflexivity.
Qed.

(** ** The normalised text *)

Lemma normalize_char_plain c :
  is_code_point c -> Forall is_plain (normalize_char c).
Proof.
  unfold normalize_char, is_plain, is_code_point, is_surrogate,
    EN_DASH, EM_DASH, HYPHEN_MINUS, QUESTION_MARK.
  intros Hc.
  destruct (Z.leb_spec 0xD800 c); destruct (Z.leb_spec c 0xDFFF);
    cbn [andb];
    destruct (Z.eqb_spec c 0x2013); try lia;
    destruct (Z.eqb_spec c 0x2014); try lia;
    repeat constructor; try lia;
    apply andb_false_iff; rewrite !Z.leb_gt; lia.
Qed.

Lemma normalized_plain s : is_str s -> Forall is_plain (normalized s).
Proof.
  unfold normalized. induction 1 as [|c s Hc Hs IH]; [constructor|].
  cbn [flat_map]. apply Forall_app. split; [|exact IH].
  apply normalize_char_plain, Hc.
Qed.

Lemma normalize_plain_char c : is_plain c -> normalize_char c = [c].
Proof.
  intros (_ & Hs & Hen & Hem). unfold normalize_char. rewrite Hs.
  destruct (Z.eqb_spec c EN_DASH); [contradiction|].
  destruct (Z.eqb_spec c EM_DASH); [contradiction|]. reflexivity.
Qed.

Lemma normalized_fixpoint t : Forall is_plain t -> normalized t = t.
Proof.
  unfold normalized. induction 1 as [|c t Hc Ht IH]; [reflexivity|].
  cbn [flat_map]. rewrite normalize_plain_char, IH by assumption. reflexivity.
Qed.

Lemma plain_is_str t : Forall is_plain t -> is_str t.
Proof.
  intros H. eapply Forall_impl; [exact H|]. intros c Hc. apply Hc.
Qed.

Lemma plain_no_surrogate t :
  Forall is_plain t -> Forall (fun c => is_surrogate c = false) t.
Proof.
  intros H. eapply Forall_impl; [exact H|]. intros c Hc. apply Hc.
Qed.

Lemma plain_repaired t : Forall is_plain t -> map repaired t = t.
Proof.
  induction 1 as [|c t Hc Ht IH]; [reflexivity|].
  cbn [map]. rewrite IH. unfold repaired.
  destruct Hc as (_ & -> & _). reflexivity.
Qed.

Lemma normalized_app s t : normalized (s ++ t) = normalized s ++ normalized t.
Proof. apply flat_map_app. Qed.

(** ** [process_response] *)

Section Normalisation.

Import LLMModel.

(** What [process_response] returns, and that it leaves the state alone. *)
Lemma process_response_normalized s σ :
  is_str s -> process_response s σ = (Ok (normalized s), σ).
Proof.
  intros Hs. unfold process_response, bind.
  rewrite decode_encode_replace by assumption.
  unfold ret. rewrite replace_repaired. reflexivity.
Qed.

End Normalisation.

(** ** Construction and credential rotation *)

Section Adapter.

Import LLMModel.

Context {lib : ClientLibrary}.

Variable LLM_CONFIG : gmap string Config.

Lemma expected_client_agrees mt cfg key :
  supported mt -> agrees mt cfg key (expected_client mt cfg key).
Proof.
  intros Hmt. unfold agrees, expected_client. cbn.
  repeat split.
  destruct (decide (mt = "gpt4")) as [E|NE]; [left; done|].
  destruct Hmt as [E|E]; [contradiction | right; done].
Qed.

(** What [_initialize_model] asks of the client library, on a supported
    provider: the client of the stored configuration record and credential. *)
Lemma initialize_model_new_client σ mt cfg key :
  model_type (self σ) = Some mt ->
  config (self σ) = Some cfg ->
  api_key (self σ) = Some key ->
  supported mt ->
  _initialize_model σ = new_client (expected_client mt cfg key) σ.
Proof.
  intros Hmt Hcfg Hkey Hs.
  unfold _initialize_model, bind, getattr. rewrite Hmt.
  unfold expected_client, ChatOpenAI, ChatAnthropic.
  destruct (decide (mt = "gpt4")) as [E|NE].
  - cbn. rewrite Hcfg, Hkey. reflexivity.
  - destruct (decide (mt = "claude")) as [E|NE'].
    + cbn. rewrite Hcfg, Hkey. reflexivity.
    + destruct Hs; contradiction.
Qed.

(** [_initialize_model] on a supported provider, when the constructor
    returns: the expected client is created and nothing else changes. *)
Lemma initialize_model_supported σ mt cfg key :
  model_type (self σ) = Some mt ->
  config (self σ) = Some cfg ->
  api_key (self σ) = Some key ->
  supported mt ->
  constructor_error (expected_client mt cfg key) = None ->
  _initialize_model σ
  = (Ok (length (store σ)),
     mkState (self σ) (store σ ++ [expected_client mt cfg key])).
Proof.
  intros Hmt Hcfg Hkey Hs Hb.
  rewrite (initialize_model_new_client σ mt cfg key) by assumption.
  unfold new_client. rewrite Hb. reflexivity.
Qed.

(** When the constructor raises, [_initialize_model] raises the same
    exception and changes nothing. *)
Lemma initialize_model_refused σ mt cfg key e :
  model_type (self σ) = Some mt ->
  config (self σ) = Some cfg ->
  api_key (self σ) = Some key ->
  supported mt ->
  constructor_error (expected_client mt cfg key) = Some e ->
  _initialize_model σ = (Raise e, σ).
Proof.
  intros Hmt Hcfg Hkey Hs Hb.
  rewrite (initialize_model_new_client σ mt cfg key) by assumption.
  unfold new_client. rewrite Hb. reflexivity.
Qed.

(** [_initialize_model] on any other provider raises and changes nothing. *)
Lemma initialize_model_unsupported σ mt :
  model_type (self σ) = Some mt ->
  ~ supported mt ->
  _initialize_model σ
  = (Raise (ValueError ("Unsupported model type: " +:+ mt)), σ).
Proof.
  intros Hmt Hs. unfold _initialize_model, bind, getattr. rewrite Hmt.
  destruct (decide (mt = "gpt4")) as [E|_]; [destruct Hs; left; exact E|].
  destruct (decide (mt = "claude")) as [E|_]; [destruct Hs; right; exact E|].
  reflexivity.
Qed.

(** [__init__] on any object, new or not. *)
Lemma init_supported σ mt cfg key :
  LLM_CONFIG !! mt = Some cfg ->
  supported mt ->
  constructor_error (expected_client mt cfg key) = None ->
  __init__ LLM_CONFIG mt key σ
  = (Ok tt,
     mkState
       (mkAttrs (Some mt) (Some cfg) (Some key) (Some (length (store σ))))
       (store σ ++ [expected_client mt cfg key])).
Proof.
  intros Hcfg Hs Hb. unfold __init__, bind, getitem, setattr.
  cbn -[_initialize_model]. rewrite Hcfg. cbn -[_initialize_model].
  erewrite initialize_model_supported by (cbn; done). reflexivity.
Qed.

Lemma init_refused σ mt cfg key e :
  LLM_CONFIG !! mt = Some cfg ->
  supported mt ->
  constructor_error (expected_client mt cfg key) = Some e ->
  __init__ LLM_CONFIG mt key σ
  = (Raise e,
     mkState (mkAttrs (Some mt) (Some cfg) (Some key) (model (self σ)))
       (store σ)).
Proof.
  intros Hcfg Hs Hb. unfold __init__, bind, getitem, setattr.
  cbn -[_initialize_model]. rewrite Hcfg. cbn -[_initialize_model].
  erewrite initialize_model_refused by (cbn; done). reflexivity.
Qed.

Lemma init_unsupported σ mt cfg key :
  LLM_CONFIG !! mt = Some cfg ->
  ~ supported mt ->
  __init__ LLM_CONFIG mt key σ
  = (Raise (ValueError ("Unsupported model type: " +:+ mt)),
     mkState (mkAttrs (Some mt) (Some cfg) (Some key) (model (self σ)))
       (store σ)).
Proof.
  intros Hcfg Hs. unfold __init__, bind, getitem, setattr.
  cbn -[_initialize_model]. rewrite Hcfg. cbn -[_initialize_model].
  erewrite initialize_model_unsupported by (cbn; done). reflexivity.
Qed.

Lemma init_unknown σ mt key :
  LLM_CONFIG !! mt = None ->
  __init__ LLM_CONFIG mt key σ
  = (Raise (KeyError mt),
     mkState
       (mkAttrs (Some mt) (config (self σ)) (api_key (self σ))
          (model (self σ)))
       (store σ)).
Proof.
  intros Hcfg. unfold __init__, bind, getitem, setattr.
  cbn. rewrite Hcfg. reflexivity.
Qed.

Lemma construct_supported mt cfg key objects :
  LLM_CONFIG !! mt = Some cfg ->
  supported mt ->
  constructor_error (expected_client mt cfg key) = None ->
  construct LLM_CONFIG mt key objects
  = Ok (mkState
          (mkAttrs (Some mt) (Some cfg) (Some key) (Some (length objects)))
          (objects ++ [expected_client mt cfg key])).
Proof.
  intros Hcfg Hs Hb. unfold construct.
  rewrite (init_supported _ mt cfg key Hcfg Hs Hb). reflexivity.
Qed.

Lemma construct_refused mt cfg key objects e :
  LLM_CONFIG !! mt = Some cfg ->
  supported mt ->
  constructor_error (expected_client mt cfg key) = Some e ->
  construct LLM_CONFIG mt key objects = Raise e.
Proof.
  intros Hcfg Hs Hb. unfold construct.
  rewrite (init_refused _ mt cfg key e Hcfg Hs Hb). reflexivity.
Qed.

Lemma construct_unsupported mt cfg key objects :
  LLM_CONFIG !! mt = Some cfg ->
  ~ supported mt ->
  construct LLM_CONFIG mt key objects
  = Raise (ValueError ("Unsupported model type: " +:+ mt)).
Proof.
  intros Hcfg Hs. unfold construct.
  rewrite (init_unsupported _ mt cfg key Hcfg Hs). reflexivity.
Qed.

Lemma construct_unknown mt key objects :
  LLM_CONFIG !! mt = None ->
  construct LLM_CONFIG mt key objects = Raise (KeyError mt).
Proof.
  intros Hcfg. unfold construct.
  rewrite (init_unknown _ mt key Hcfg). reflexivity.
Qed.

Lemma supported_dec mt : {supported mt} + {~ supported mt}.
Proof. unfold supported. apply or_dec; apply decide; apply _. Defined.

(** The states construction returns. *)
Lemma construct_Ok mt key objects σ :
  construct LLM_CONFIG mt key objects = Ok σ ->
  exists cfg,
    LLM_CONFIG !! mt = Some cfg /\ supported mt
    /\ constructor_error (expected_client mt cfg key) = None
    /\ σ = mkState
             (mkAttrs (Some mt) (Some cfg) (Some key) (Some (length objects)))
             (objects ++ [expected_client mt cfg key]).
Proof.
  intros H. destruct (LLM_CONFIG !! mt) as [cfg|] eqn:Hcfg.
  - destruct (supported_dec mt) as [Hs|Hs].
    + destruct (constructor_error (expected_client mt cfg key)) as [e|] eqn:Hb.
      * rewrite (construct_refused _ _ _ _ _ Hcfg Hs Hb) in H. discriminate.
      * rewrite (construct_supported _ _ _ _ Hcfg Hs Hb) in H.
        exists cfg. repeat split; [assumption .. | congruence].
    + rewrite (construct_unsupported _ _ _ _ Hcfg Hs) in H. discriminate.
  - rewrite construct_unknown in H by assumption. discriminate.
Qed.

Lemma update_api_key_unfold key σ :
  update_api_key key σ
  = match _initialize_model
            (mkState (set_api_key (Some key) (self σ)) (store σ)) with
    | (Ok h, σ') => (Ok tt, mkState (set_model h (self σ')) (store σ'))
    | (Raise e, σ') => (Raise e, σ')
    end.
Proof.
  unfold update_api_key, bind, setattr. cbn [self store].
  destruct (_initialize_model _) as [[h|e] σ']; reflexivity.
Qed.

Lemma update_api_key_supported σ mt cfg key :
  model_type (self σ) = Some mt ->
  config (self σ) = Some cfg ->
  supported mt ->
  constructor_error (expected_client mt cfg (Some key)) = None ->
  update_api_key key σ
  = (Ok tt,
     mkState
       (mkAttrs (Some mt) (Some cfg) (Some (Some key))
          (Some (length (store σ))))
       (store σ ++ [expected_client mt cfg (Some key)])).
Proof.
  intros Hmt Hcfg Hs Hb. rewrite update_api_key_unfold.
  erewrite initialize_model_supported by (cbn; done).
  cbn. unfold set_model, set_api_key. cbn. rewrite Hmt, Hcfg. reflexivity.
Qed.

(** When the constructor raises, the update has stored the credential and
    nothing else. *)
Lemma update_api_key_refused σ mt cfg key e :
  model_type (self σ) = Some mt ->
  config (self σ) = Some cfg ->
  supported mt ->
  constructor_error (expected_client mt cfg (Some key)) = Some e ->
  update_api_key key σ
  = (Raise e,
     mkState
       (mkAttrs (Some mt) (Some cfg) (Some (Some key)) (model (self σ)))
       (store σ)).
Proof.
  intros Hmt Hcfg Hs Hb. rewrite update_api_key_unfold.
  erewrite initialize_model_refused by (cbn; done).
  unfold set_api_key. cbn. rewrite Hmt, Hcfg. reflexivity.
Qed.

Lemma get_model_state σ : snd (get_model σ) = σ.
Proof. unfold get_model, getattr. destruct (model (self σ)); reflexivity. Qed.

Lemma process_response_state s σ : snd (process_response s σ) = σ.
Proof.
  unfold process_response, bind.
  destruct (decode_utf8 (encode_utf8_replace s)); reflexivity.
Qed.

Lemma agrees_supported mt cfg key c : agrees mt cfg key c -> supported mt.
Proof. intros ([[-> _] | [-> _]] & _); [left | right]; reflexivity. Qed.

Lemma consistent_provider_consistent σ :
  consistent LLM_CONFIG σ -> provider_consistent LLM_CONFIG σ.
Proof.
  intros (mt & cfg & key & c & Hmt & Hcfg & Hc & Hk & Hcur & Ha).
  destruct Ha as (H1 & H2 & H3 & H4 & H5 & H6).
  exists mt, cfg, key, c. repeat split; try assumption; reflexivity.
Qed.

Lemma provider_consistent_supported σ mt :
  provider_consistent LLM_CONFIG σ ->
  model_type (self σ) = Some mt -> supported mt.
Proof.
  intros (mt' & cfg & key & c & Hmt & _ & _ & _ & _ & Ha) Hmt'.
  assert (mt' = mt) as -> by congruence.
  eapply agrees_supported, Ha.
Qed.

Lemma consistent_construct mt key objects σ :
  construct LLM_CONFIG mt key objects = Ok σ -> consistent LLM_CONFIG σ.
Proof.
  intros (cfg & Hcfg & Hs & _ & ->)%construct_Ok.
  exists mt, cfg, key, (expected_client mt cfg key).
  repeat split; try assumption; try reflexivity.
  - unfold current_client. cbn. apply list_lookup_middle. reflexivity.
  - apply expected_client_agrees, Hs.
Qed.

(** An update that returns leaves handle and credential in agreement. *)
Lemma consistent_update_Ok key σ :
  provider_consistent LLM_CONFIG σ ->
  fst (update_api_key key σ) = Ok tt ->
  consistent LLM_CONFIG (snd (update_api_key key σ))
  /\ api_key (self (snd (update_api_key key σ))) = Some (Some key)
  /\ model (self (snd (update_api_key key σ))) = Some (length (store σ)).
Proof.
  intros (mt & cfg & k0 & c & Hmt & Hcfg & Hc & Hk & Hcur & Ha).
  pose proof (agrees_supported _ _ _ _ Ha) as Hs.
  destruct (constructor_error (expected_client mt cfg (Some key)))
    as [e|] eqn:Hb.
  { rewrite (update_api_key_refused _ _ _ _ _ Hmt Hc Hs Hb). discriminate. }
  rewrite (update_api_key_supported _ _ _ _ Hmt Hc Hs Hb). intros _.
  cbn [snd]. split; [|split; reflexivity].
  exists mt, cfg, (Some key), (expected_client mt cfg (Some key)).
  repeat split; try assumption; try reflexivity.
  - unfold current_client. cbn. apply list_lookup_middle. reflexivity.
  - apply expected_client_agrees, Hs.
Qed.

(** An update that raises has stored the credential and left the handle and
    the store. *)
Lemma update_api_key_Raise key σ e :
  provider_consistent LLM_CONFIG σ ->
  fst (update_api_key key σ) = Raise e ->
  snd (update_api_key key σ)
  = mkState (set_api_key (Some key) (self σ)) (store σ).
Proof.
  intros (mt & cfg & k0 & c & Hmt & Hcfg & Hc & Hk & Hcur & Ha).
  pose proof (agrees_supported _ _ _ _ Ha) as Hs.
  destruct (constructor_error (expected_client mt cfg (Some key)))
    as [e'|] eqn:Hb.
  - rewrite (update_api_key_refused _ _ _ _ _ Hmt Hc Hs Hb). intros _.
    unfold set_api_key. cbn. rewrite Hmt, Hc. reflexivity.
  - rewrite (update_api_key_supported _ _ _ _ Hmt Hc Hs Hb). discriminate.
Qed.

Lemma provider_consistent_update key σ :
  provider_consistent LLM_CONFIG σ ->
  provider_consistent LLM_CONFIG (snd (update_api_key key σ)).
Proof.
  intros H. destruct (fst (update_api_key key σ)) as [[]|e] eqn:E.
  - apply consistent_provider_consistent.
    apply consistent_update_Ok; assumption.
  - rewrite (update_api_key_Raise key σ e H E).
    destruct H as (mt & cfg & k0 & c & Hmt & Hcfg & Hc & Hk & Hcur & Ha).
    exists mt, cfg, (Some key), c. unfold current_client in *. cbn.
    repeat split; try assumption; apply Ha.
Qed.

Lemma provider_consistent_after op σ :
  provider_consistent LLM_CONFIG σ ->
  provider_consistent LLM_CONFIG (after op σ).
Proof.
  intros H. destruct op as [|key|s]; cbn [after].
  - rewrite get_model_state. exact H.
  - apply provider_consistent_update, H.
  - rewrite process_response_state. exact H.
Qed.

Lemma reachable_provider_consistent σ :
  reachable LLM_CONFIG σ -> provider_consistent LLM_CONFIG σ.
Proof.
  induction 1 as [mt key objects σ H | op σ _ IH].
  - eapply consistent_provider_consistent, consistent_construct, H.
  - apply provider_consistent_after, IH.
Qed.

End Adapter.

(** ** The contract of the adapter *)

Section Contract.

Import LLMModel.

(** The scenario of a key rotation: [LLMModel("gpt4", "key1")], then
    [update_api_key("key2")]; the handle moves from the first client to a
    second one with the new key and the same model name. *)
Example construct_sample :
  construct (lib := no_environment_key) sample_config "gpt4" (Some "key1") []
  = Ok sample_state.
Proof. reflexivity. Qed.

Example rotate_sample :
  get_model sample_state = (Ok 0%nat, sample_state)
  /\ exists σ,
       update_api_key (lib := no_environment_key) "key2" sample_state
       = (Ok tt, σ)
       /\ get_model σ = (Ok 1%nat, σ)
       /\ store σ
          = [mkClient OpenAIChat "gpt-4" 0.5 4096 (Some "key1") 600%float;
             mkClient OpenAIChat "gpt-4" 0.5 4096 (Some "key2") 600%float].
Proof. split; [reflexivity|]. eexists. repeat split. Qed.

(** C1 (what the code does): for a provider identifier that has no entry in
    the configuration table, construction raises [KeyError] at the lookup
    [LLM_CONFIG[model_type]] of [__init__]; the [ValueError] "Unsupported
    model type" of [_initialize_model] is not reached. *)
Theorem construct_unknown_provider_KeyError
    (lib : ClientLibrary) (LLM_CONFIG : gmap string Config)
    (providerId : string) (credential : option string)
    (objects : list Client) :
  LLM_CONFIG !! providerId = None ->
  construct LLM_CONFIG providerId credential objects
  = Raise (KeyError providerId)
  /\ construct LLM_CONFIG providerId credential objects
     <> Raise (ValueError ("Unsupported model type: " +:+ providerId)).
Proof.
  intros H. rewrite construct_unknown by assumption. split; [reflexivity|].
  discriminate.
Qed.

Lemma construct_unknown_provider_KeyError_witness :
  sample_config !! "gemini" = None
  /\ construct (lib := no_environment_key) sample_config "gemini" None []
     = Raise (KeyError "gemini")
  /\ construct (lib := no_environment_key) sample_config "gemini" None []
     <> Raise (ValueError ("Unsupported model type: " +:+ "gemini")).
Proof.
  split; [reflexivity|].
  apply (construct_unknown_provider_KeyError no_environment_key
           sample_config "gemini" None []).
  reflexivity.
Defined.

(** With the two keys the configuration table has, no provider identifier
    reaches the [ValueError]: every identifier other than the two raises
    [KeyError]. *)
Lemma sample_config_unknown (lib : ClientLibrary) providerId credential
    objects :
  providerId <> "gpt4" -> providerId <> "claude" ->
  construct sample_config providerId credential objects
  = Raise (KeyError providerId).
Proof.
  intros H1 H2. apply construct_unknown. unfold sample_config.
  rewrite !lookup_insert_ne by congruence. apply lookup_empty.
Qed.

(** C2, as the code has it: for a provider identifier in {"gpt4", "claude"}
    with its record in the configuration table, construction passes the
    record's model name, temperature and token budget, the credential and a
    timeout of 600 seconds to the client constructor.  When the constructor
    returns, construction succeeds and [get_model] returns a handle to the
    client made from them, changing nothing; when the constructor raises,
    construction raises the same exception. *)
Theorem construct_get_model
    (lib : ClientLibrary) (LLM_CONFIG : gmap string Config)
    (providerId : string) (cfg : Config) (credential : option string)
    (objects : list Client) :
  providerId = "gpt4" \/ providerId = "claude" ->
  LLM_CONFIG !! providerId = Some cfg ->
  match constructor_error (expected_client providerId cfg credential) with
  | None =>
      exists σ h c,
        construct LLM_CONFIG providerId credential objects = Ok σ
        /\ get_model σ = (Ok h, σ)
        /\ store σ !! h = Some c
        /\ client_model_name c = model_name cfg
        /\ client_temperature c = temperature cfg
        /\ client_max_tokens c = max_tokens cfg
        /\ client_timeout c = 600%float
        /\ client_api_key c = credential
        /\ (providerId = "gpt4" /\ client_class_of c = OpenAIChat
            \/ providerId = "claude" /\ client_class_of c = AnthropicChat)
  | Some e => construct LLM_CONFIG providerId credential objects = Raise e
  end.
Proof.
  intros Hs Hcfg.
  destruct (constructor_error (expected_client providerId cfg credential))
    as [e|] eqn:Hb.
  { apply (construct_refused _ _ cfg); assumption. }
  eexists _, (length objects), (expected_client providerId cfg credential).
  split; [apply construct_supported; [exact Hcfg | exact Hs | exact Hb]|].
  split; [reflexivity|].
  split; [cbn; apply list_lookup_middle; reflexivity|].
  pose proof (expected_client_agrees providerId cfg credential Hs) as Ha.
  unfold agrees in Ha. tauto.
Qed.

Lemma construct_get_model_witness :
  ("claude" = "gpt4" \/ "claude" = "claude")
  /\ sample_config !! "claude" = Some (mkConfig "claude-3" 0.5 4096)
  /\ exists σ h c,
       construct (lib := no_environment_key) sample_config "claude"
         (Some "key1") []
       = Ok σ
       /\ get_model σ = (Ok h, σ)
       /\ store σ !! h = Some c
       /\ client_model_name c = "claude-3"
       /\ client_temperature c = 0.5%float
       /\ client_max_tokens c = 4096
       /\ client_timeout c = 600%float
       /\ client_api_key c = Some "key1"
       /\ ("claude" = "gpt4" /\ client_class_of c = OpenAIChat
           \/ "claude" = "claude" /\ client_class_of c = AnthropicChat).
Proof.
  split; [right; reflexivity|]. split; [reflexivity|].
  apply (construct_get_model no_environment_key sample_config "claude"
           (mkConfig "claude-3" 0.5 4096) (Some "key1") []).
  - right. reflexivity.
  - reflexivity.
Defined.

(** C2 as stated fails: with no key in the environment,
    [LLMModel("gpt4", "")] does not succeed; the client constructor raises
    and so does the construction. *)
Lemma construct_empty_credential_raises :
  ("gpt4" = "gpt4" \/ "gpt4" = "claude")
  /\ sample_config !! "gpt4" = Some (mkConfig "gpt-4" 0.5 4096)
  /\ construct (lib := no_environment_key) sample_config "gpt4" (Some "") []
     = Raise (ClientError "OpenAIError")
  /\ ~ exists σ h c,
         construct (lib := no_environment_key) sample_config "gpt4"
           (Some "") []
         = Ok σ
         /\ get_model σ = (Ok h, σ)
         /\ store σ !! h = Some c.
Proof.
  split; [left; reflexivity|]. split; [reflexivity|].
  split; [reflexivity|].
  intros (σ & h & c & H & _). discriminate H.
Qed.




(** An adapter whose provider identifier has been overwritten raises the
    [ValueError] on an update, after it has stored the new credential. *)
Lemma update_api_key_corrupted (lib : ClientLibrary) :
  update_api_key "key2" corrupted_state
  = (Raise (ValueError "Unsupported model type: gemini"),
     mkState
       (mkAttrs (Some "gemini") (Some (mkConfig "gpt-4" 0.5 4096))
          (Some (Some "key2")) (Some 0%nat))
       [mkClient OpenAIChat "gpt-4" 0.5 4096 (Some "key1") 600%float]).
Proof. reflexivity. Qed.

Lemma corrupted_state_unreachable
    (lib : ClientLibrary) (LLM_CONFIG : gmap string Config) :
  ~ reachable LLM_CONFIG corrupted_state.
Proof.
  intros Hr%reachable_provider_consistent.
  apply (provider_consistent_supported _ _ "gemini") in Hr; [|reflexivity].
  destruct Hr; discriminate.
Qed.




(** C10: a call that leaves out the provider identifier constructs with
    ["gpt4"], a call that leaves out the credential constructs with [None].
    With both left out, [__init__] stores the credential [None] and hands
    [None] to the constructor of the ["gpt4"] client as its credential: the
    call returns an adapter on that client when the constructor returns, and
    raises the constructor's exception when it raises. *)
Theorem call_defaults
    (lib : ClientLibrary) (LLM_CONFIG : gmap string Config) (cfg : Config)
    (objects : list Client) :
  LLM_CONFIG !! "gpt4" = Some cfg ->
  (forall credential,
     call LLM_CONFIG None (Some credential) objects
     = construct LLM_CONFIG "gpt4" credential objects)
  /\ (forall providerId,
        call LLM_CONFIG (Some providerId) None objects
        = construct LLM_CONFIG providerId None objects)
  /\ api_key
       (self (snd (__init__ LLM_CONFIG default_model_type default_api_key
                     (mkState no_attrs objects))))
     = Some None
  /\ match constructor_error
             (mkClient OpenAIChat (model_name cfg) (temperature cfg)
                (max_tokens cfg) None 600%float) with
     | None =>
         exists σ c,
           call LLM_CONFIG None None objects = Ok σ
           /\ model_type (self σ) = Some "gpt4"
           /\ api_key (self σ) = Some None
           /\ current_client σ = Some c
           /\ client_class_of c = OpenAIChat
           /\ client_api_key c = None
     | Some e => call LLM_CONFIG None None objects = Raise e
     end.
Proof.
  intros Hcfg. split; [reflexivity|]. split; [reflexivity|].
  assert (Hs : supported "gpt4") by (left; reflexivity).
  change (mkClient OpenAIChat (model_name cfg) (temperature cfg)
            (max_tokens cfg) None 600%float)
    with (expected_client "gpt4" cfg None).
  unfold call, default_model_type, default_api_key. cbn [default].
  destruct (constructor_error (expected_client "gpt4" cfg None))
    as [e|] eqn:Hb.
  - rewrite (init_refused _ _ "gpt4" cfg None e Hcfg Hs Hb).
    split; [reflexivity|].
    apply (construct_refused _ "gpt4" cfg None objects e Hcfg Hs Hb).
  - rewrite (init_supported _ _ "gpt4" cfg None Hcfg Hs Hb).
    split; [reflexivity|].
    eexists _, (expected_client "gpt4" cfg None).
    split; [apply (construct_supported _ "gpt4" cfg None objects Hcfg Hs Hb)|].
    repeat split. unfold current_client. cbn.
    apply list_lookup_middle. reflexivity.
Qed.

Lemma call_defaults_witness :
  sample_config !! "gpt4" = Some (mkConfig "gpt-4" 0.5 4096)
  /\ (forall credential,
        call (lib := no_environment_key) sample_config None
          (Some credential) []
        = construct (lib := no_environment_key) sample_config "gpt4"
            credential [])
  /\ (forall providerId,
        call (lib := no_environment_key) sample_config (Some providerId)
          None []
        = construct (lib := no_environment_key) sample_config providerId
            None [])
  /\ api_key
       (self (snd (__init__ (lib := no_environment_key) sample_config
                     default_model_type default_api_key
                     (mkState no_attrs []))))
     = Some None
  /\ call (lib := no_environment_key) sample_config None None []
     = Raise (ClientError "OpenAIError").
Proof.
  split; [reflexivity|].
  apply (call_defaults no_environment_key sample_config
           (mkConfig "gpt-4" 0.5 4096) []).
  reflexivity.
Defined.

(** C5: [process_response] is idempotent: on every text, running it on its
    own result returns that result again (and it does return a result). *)
Theorem process_response_idempotent (s : str) (σ : state) :
  is_str s ->
  (exists out, process_response s σ = (Ok out, σ))
  /\ (out <- process_response s ;; process_response out) σ
     = process_response s σ.
Proof.
  intros Hs. rewrite (process_response_normalized s σ Hs).
  split; [eexists; reflexivity|].
  unfold bind at 1. rewrite (process_response_normalized s σ Hs).
  pose proof (normalized_plain s Hs) as Hp.
  rewrite process_response_normalized by (apply plain_is_str, Hp).
  rewrite normalized_fixpoint by exact Hp. reflexivity.
Qed.

Lemma process_response_idempotent_witness :
  is_str (0xDC00 :: cafe_text)
  /\ (exists out,
        process_response (0xDC00 :: cafe_text) sample_state
        = (Ok out, sample_state))
  /\ (out <- process_response (0xDC00 :: cafe_text) ;;
      process_response out) sample_state
     = process_response (0xDC00 :: cafe_text) sample_state.
Proof.
  assert (Hs : is_str (0xDC00 :: cafe_text)).
  { unfold cafe_text, EN_DASH, EM_DASH.
    repeat (apply Forall_cons_2; [unfold is_code_point; lia|]).
    apply Forall_nil_2. }
  split; [exact Hs|].
  apply (process_response_idempotent (0xDC00 :: cafe_text) sample_state).
  exact Hs.
Defined.

(** C6: the result of [process_response] is the input with every en dash
    replaced by ["-"] and every em dash by ["--"] (and every code point
    without an encoding by the replacement marker); it contains neither
    dash, and it encodes to UTF-8 strictly and decodes back to itself. *)
Theorem process_response_no_dashes (s : str) (σ : state) :
  is_str s ->
  exists out,
    process_response s σ = (Ok out, σ)
    /\ out = normalized s
    /\ (EN_DASH ∉ out)
    /\ (EM_DASH ∉ out)
    /\ exists bs, encode_utf8_strict out = Some bs /\ decode_utf8 bs = Some out.
Proof.
  intros Hs. exists (normalized s).
  pose proof (normalized_plain s Hs) as Hp.
  split; [apply process_response_normalized, Hs|].
  split; [reflexivity|].
  rewrite Forall_forall in Hp.
  split; [|split].
  - intros Hin. apply Hp in Hin. destruct Hin as (_ & _ & Hne & _).
    apply Hne. reflexivity.
  - intros Hin. apply Hp in Hin. destruct Hin as (_ & _ & _ & Hne).
    apply Hne. reflexivity.
  - rewrite <- Forall_forall in Hp.
    exists (encode_utf8_replace (normalized s)). split.
    + apply encode_strict_replace, plain_no_surrogate, Hp.
    + rewrite decode_encode_replace by (apply plain_is_str, Hp).
      rewrite plain_repaired by exact Hp. reflexivity.
Qed.

Lemma process_response_no_dashes_witness :
  is_str cafe_text
  /\ exists out,
       process_response cafe_text sample_state = (Ok out, sample_state)
       /\ out = normalized cafe_text
       /\ (EN_DASH ∉ out)
       /\ (EM_DASH ∉ out)
       /\ exists bs,
            encode_utf8_strict out = Some bs /\ decode_utf8 bs = Some out.
Proof.
  assert (Hs : is_str cafe_text).
  { unfold cafe_text, EN_DASH, EM_DASH.
    repeat (apply Forall_cons_2; [unfold is_code_point; lia|]).
    apply Forall_nil_2. }
  split; [exact Hs|].
  apply (process_response_no_dashes cafe_text sample_state). exact Hs.
Defined.

(** C7: [process_response] never raises: on every text it returns a text;
    and where the input has a surrogate, the result has the replacement
    marker ["?"] in its place, between the results of the text before it and
    of the text after it. *)
Theorem process_response_never_raises (s : str) (σ : state) :
  is_str s ->
  exists out,
    process_response s σ = (Ok out, σ)
    /\ forall s1 c s2,
         s = s1 ++ c :: s2 -> is_surrogate c = true ->
         exists out1 out2,
           process_response s1 σ = (Ok out1, σ)
           /\ process_response s2 σ = (Ok out2, σ)
           /\ out = out1 ++ QUESTION_MARK :: out2.
Proof.
  intros Hs. exists (normalized s).
  split; [apply process_response_normalized, Hs|].
  intros s1 c s2 -> Hc.
  apply Forall_app in Hs as [Hs1 Hs2]. apply Forall_cons in Hs2 as [_ Hs2].
  exists (normalized s1), (normalized s2).
  split; [apply process_response_normalized, Hs1|].
  split; [apply process_response_normalized, Hs2|].
  rewrite normalized_app. f_equal.
  change (c :: s2) with ([c] ++ s2). rewrite normalized_app.
  unfold normalized at 1. cbn [flat_map]. unfold normalize_char.
  rewrite Hc. reflexivity.
Qed.

Lemma process_response_never_raises_witness :
  is_str [0x61; 0xD800; 0x62]
  /\ exists out,
       process_response [0x61; 0xD800; 0x62] sample_state
       = (Ok out, sample_state)
       /\ forall s1 c s2,
            [0x61; 0xD800; 0x62] = s1 ++ c :: s2 -> is_surrogate c = true ->
            exists out1 out2,
              process_response s1 sample_state = (Ok out1, sample_state)
              /\ process_response s2 sample_state
                 = (Ok out2, sample_state)
              /\ out = out1 ++ QUESTION_MARK :: out2.
Proof.
  assert (Hs : is_str [0x61; 0xD800; 0x62]).
  { repeat (apply Forall_cons_2; [unfold is_code_point; lia|]).
    apply Forall_nil_2. }
  split; [exact Hs|].
  apply (process_response_never_raises [0x61; 0xD800; 0x62] sample_state).
  exact Hs.
Defined.

(** The text ["a"], a lone surrogate, ["b"] becomes ["a?b"]. *)
Example process_response_lone_surrogate σ :
  process_response [0x61; 0xD800; 0x62] σ = (Ok [0x61; 0x3F; 0x62], σ).
Proof. reflexivity. Qed.

(** C8: [process_response] maps ["café – 2024 — test"] (with U+2013 and
    U+2014) to ["café - 2024 -- test"]. *)
Theorem process_response_cafe (σ : state) :
  process_response cafe_text σ = (Ok cafe_normalized, σ).
Proof. reflexivity. Qed.

(** C9: [process_response] is a function of its input text alone: its result
    does not depend on the state of the adapter and of the store, and it
    leaves both as they were. *)
Theorem process_response_pure (s : str) (σ σ' : state) :
  snd (process_response s σ) = σ
  /\ fst (process_response s σ) = fst (process_response s σ').
Proof.
  split; [apply process_response_state|].
  unfold process_response, bind.
  destruct (decode_utf8 (encode_utf8_replace s)); reflexivity.
Qed.

End Contract.

(** * Further properties of the adapter *)

(** ** What the methods do to the state, from any state *)

Section Effects.

Import LLMModel.

Context {lib : ClientLibrary}.

(** [_initialize_model] never touches the attributes; it either returns the
    position of one new object at the end of the store, or raises and leaves
    the store as it was. *)
Lemma initialize_model_effect σ :
  self (snd (_initialize_model σ)) = self σ
  /\ match fst (_initialize_model σ) with
     | Ok h =>
         h = length (store σ)
         /\ exists c, store (snd (_initialize_model σ)) = store σ ++ [c]
     | Raise _ => store (snd (_initialize_model σ)) = store σ
     end.
Proof.
  unfold _initialize_model, bind, getattr, ChatOpenAI, ChatAnthropic,
    new_client.
  destruct (model_type (self σ)) as [mt|]; [|split; reflexivity].
  destruct (decide (mt = "gpt4")).
  { destruct (config (self σ)) as [cfg|]; [|split; reflexivity].
    destruct (api_key (self σ)) as [key|]; [|split; reflexivity].
    cbn. destruct (constructor_error _); [split; reflexivity|].
    cbn. split; [reflexivity|]. split; [reflexivity|]. eexists. reflexivity. }
  destruct (decide (mt = "claude")).
  { destruct (config (self σ)) as [cfg|]; [|split; reflexivity].
    destruct (api_key (self σ)) as [key|]; [|split; reflexivity].
    cbn. destruct (constructor_error _); [split; reflexivity|].
    cbn. split; [reflexivity|]. split; [reflexivity|]. eexists. reflexivity. }
  split; reflexivity.
Qed.

(** What [update_api_key] does from any state: the provider identifier and
    the configuration record stay, the credential is the new one, and the
    store is extended by at most one object. *)
Lemma update_api_key_effect key σ :
  let σ' := snd (update_api_key key σ) in
  model_type (self σ') = model_type (self σ)
  /\ config (self σ') = config (self σ)
  /\ api_key (self σ') = Some (Some key)
  /\ (store σ' = store σ \/ exists c, store σ' = store σ ++ [c]).
Proof.
  rewrite update_api_key_unfold.
  pose proof (initialize_model_effect
                (mkState (set_api_key (Some key) (self σ)) (store σ)))
    as [Hself Hstore].
  destruct (_initialize_model _) as [[h|e] σ']; cbn [fst snd] in *;
    cbn [self store] in *.
  - rewrite Hself. cbn. repeat split. right. apply Hstore.
  - rewrite Hself. cbn. repeat split. left. exact Hstore.
Qed.

Lemma after_effect op σ :
  model_type (self (after op σ)) = model_type (self σ)
  /\ config (self (after op σ)) = config (self σ)
  /\ (store (after op σ) = store σ
      \/ exists c, store (after op σ) = store σ ++ [c]).
Proof.
  destruct op as [|key|s]; cbn [after].
  - rewrite get_model_state. repeat split. left. reflexivity.
  - pose proof (update_api_key_effect key σ) as (H1 & H2 & _ & H3).
    repeat split; assumption.
  - rewrite process_response_state. repeat split. left. reflexivity.
Qed.

End Effects.

(** ** Construction: success and the errors *)

Section AdapterProperties.

Import LLMModel.

(** X1: when the table has an entry for a provider identifier that is
    neither ["gpt4"] nor ["claude"], construction raises the [ValueError]
    of [_initialize_model], whose message is "Unsupported model type: "
    followed by the identifier. *)
Theorem construct_entry_unsupported_ValueError
    (lib : ClientLibrary) (LLM_CONFIG : gmap string Config)
    (providerId : string) (cfg : Config) (credential : option string)
    (objects : list Client) :
  LLM_CONFIG !! providerId = Some cfg ->
  providerId <> "gpt4" -> providerId <> "claude" ->
  construct LLM_CONFIG providerId credential objects
  = Raise (ValueError ("Unsupported model type: " +:+ providerId)).
Proof.
  intros Hcfg H1 H2. eapply construct_unsupported; [exact Hcfg|].
  intros [E|E]; contradiction.
Qed.

Lemma construct_entry_unsupported_ValueError_witness :
  wider_config !! "gemini" = Some (mkConfig "gemini-pro" 0.5 2048)
  /\ "gemini" <> "gpt4" /\ "gemini" <> "claude"
  /\ construct (lib := no_environment_key) wider_config "gemini"
       (Some "key1") []
     = Raise (ValueError "Unsupported model type: gemini").
Proof.
  split; [reflexivity|]. split; [discriminate|]. split; [discriminate|].
  apply (construct_entry_unsupported_ValueError no_environment_key
           wider_config "gemini" (mkConfig "gemini-pro" 0.5 2048)
           (Some "key1") []).
  - reflexivity.
  - discriminate.
  - discriminate.
Defined.

(** X2: construction returns an adapter exactly when the provider identifier
    is ["gpt4"] or ["claude"], the table has an entry for it, and the client
    constructor returns on the arguments made from that entry and the
    credential. *)
Theorem construct_Ok_iff
    (lib : ClientLibrary) (LLM_CONFIG : gmap string Config)
    (providerId : string) (credential : option string)
    (objects : list Client) :
  (exists σ, construct LLM_CONFIG providerId credential objects = Ok σ)
  <-> (providerId = "gpt4" \/ providerId = "claude")
      /\ exists cfg,
           LLM_CONFIG !! providerId = Some cfg
           /\ constructor_error (expected_client providerId cfg credential)
              = None.
Proof.
  split.
  - intros [σ (cfg & Hcfg & Hs & Hb & _)%construct_Ok].
    split; [exact Hs | exists cfg; split; assumption].
  - intros [Hs (cfg & Hcfg & Hb)]. eexists.
    apply construct_supported; [exact Hcfg | exact Hs | exact Hb].
Qed.

(** X3: when [__init__] raises, on a new object or on an adapter that is
    initialised again, it has created no client and left the handle alone,
    but it has already assigned the provider identifier.  The exception is
    the [KeyError] of a missing entry, and then the configuration record and
    the credential are the old ones; or the [ValueError] of an entry for an
    unsupported provider, or the exception the client constructor raised, and
    then they are the new ones. *)
Theorem init_failure_state
    (lib : ClientLibrary) (LLM_CONFIG : gmap string Config)
    (providerId : string) (credential : option string) (σ : state)
    (e : exn) :
  fst (__init__ LLM_CONFIG providerId credential σ) = Raise e ->
  let σ' := snd (__init__ LLM_CONFIG providerId credential σ) in
  store σ' = store σ
  /\ model (self σ') = model (self σ)
  /\ model_type (self σ') = Some providerId
  /\ (e = KeyError providerId
      /\ LLM_CONFIG !! providerId = None
      /\ config (self σ') = config (self σ)
      /\ api_key (self σ') = api_key (self σ)
      \/ exists cfg,
           LLM_CONFIG !! providerId = Some cfg
           /\ config (self σ') = Some cfg
           /\ api_key (self σ') = Some credential
           /\ (e = ValueError ("Unsupported model type: " +:+ providerId)
               /\ providerId <> "gpt4" /\ providerId <> "claude"
               \/ (providerId = "gpt4" \/ providerId = "claude")
                  /\ constructor_error
                       (expected_client providerId cfg credential)
                     = Some e)).
Proof.
  destruct (LLM_CONFIG !! providerId) as [cfg|] eqn:Hcfg.
  - destruct (supported_dec providerId) as [Hs|Hs].
    + destruct (constructor_error (expected_client providerId cfg credential))
        as [e'|] eqn:Hb.
      * rewrite (init_refused _ _ _ _ credential e' Hcfg Hs Hb).
        cbn. intros [= <-]. repeat split. right. exists cfg.
        repeat split. right. split; [exact Hs | exact Hb].
      * rewrite (init_supported _ _ _ _ credential Hcfg Hs Hb). discriminate.
    + rewrite (init_unsupported _ _ _ _ credential Hcfg Hs).
      cbn. intros [= <-]. repeat split. right. exists cfg.
      repeat split. left.
      repeat split; intros E; apply Hs; [left | right]; exact E.
  - rewrite (init_unknown _ _ _ credential Hcfg).
    cbn. intros [= <-]. repeat split. left. repeat split.
Qed.

Lemma init_failure_state_witness :
  fst (__init__ (lib := no_environment_key) sample_config "gpt4" (Some "")
         sample_state)
  = Raise (ClientError "OpenAIError")
  /\ let σ' := snd (__init__ (lib := no_environment_key) sample_config
                     "gpt4" (Some "") sample_state) in
     store σ' = store sample_state
     /\ model (self σ') = model (self sample_state)
     /\ model_type (self σ') = Some "gpt4"
     /\ (ClientError "OpenAIError" = KeyError "gpt4"
         /\ sample_config !! "gpt4" = None
         /\ config (self σ') = config (self sample_state)
         /\ api_key (self σ') = api_key (self sample_state)
         \/ exists cfg,
              sample_config !! "gpt4" = Some cfg
              /\ config (self σ') = Some cfg
              /\ api_key (self σ') = Some (Some "")
              /\ (ClientError "OpenAIError"
                  = ValueError ("Unsupported model type: " +:+ "gpt4")
                  /\ "gpt4" <> "gpt4" /\ "gpt4" <> "claude"
                  \/ ("gpt4" = "gpt4" \/ "gpt4" = "claude")
                     /\ constructor_error (ClientLibrary := no_environment_key)
                          (expected_client "gpt4" cfg (Some ""))
                        = Some (ClientError "OpenAIError"))).
Proof.
  split; [reflexivity|].
  apply (init_failure_state no_environment_key sample_config "gpt4"
           (Some "") sample_state (ClientError "OpenAIError")).
  reflexivity.
Defined.

(** X4: on an adapter whose provider identifier is neither ["gpt4"] nor
    ["claude"], [update_api_key] raises the [ValueError] after it has stored
    the new credential: the handle and the store are as before, so the
    handle still refers to the client of the old credential. *)
Theorem update_api_key_unsupported
    (lib : ClientLibrary) (σ : state) (mt : string) (newCred : string) :
  model_type (self σ) = Some mt ->
  mt <> "gpt4" -> mt <> "claude" ->
  update_api_key newCred σ
  = (Raise (ValueError ("Unsupported model type: " +:+ mt)),
     mkState
       (mkAttrs (Some mt) (config (self σ)) (Some (Some newCred))
          (model (self σ)))
       (store σ)).
Proof.
  intros Hmt H1 H2. rewrite update_api_key_unfold.
  erewrite initialize_model_unsupported.
  - unfold set_api_key. cbn. rewrite Hmt. reflexivity.
  - cbn. exact Hmt.
  - intros [E|E]; contradiction.
Qed.

Lemma update_api_key_unsupported_witness :
  model_type (self corrupted_state) = Some "gemini"
  /\ "gemini" <> "gpt4" /\ "gemini" <> "claude"
  /\ update_api_key (lib := no_environment_key) "key2" corrupted_state
     = (Raise (ValueError ("Unsupported model type: " +:+ "gemini")),
        mkState
          (mkAttrs (Some "gemini") (config (self corrupted_state))
             (Some (Some "key2")) (model (self corrupted_state)))
          (store corrupted_state)).
Proof.
  split; [reflexivity|]. split; [discriminate|]. split; [discriminate|].
  apply (update_api_key_unsupported no_environment_key corrupted_state
           "gemini" "key2").
  - reflexivity.
  - discriminate.
  - discriminate.
Defined.

(** X5: no operation removes or changes a client object: from any state, a
    handle that referred to a client before an operation refers to the same
    client after it, whether the operation returns or raises. *)
Theorem handles_stay_valid
    (lib : ClientLibrary) (op : operation) (σ : state) (h : handle)
    (c : Client) :
  store σ !! h = Some c -> store (after op σ) !! h = Some c.
Proof.
  intros Hh. destruct (after_effect op σ) as (_ & _ & [-> | [c' ->]]).
  - exact Hh.
  - apply lookup_app_l_Some, Hh.
Qed.

Lemma handles_stay_valid_witness :
  store sample_state !! 0%nat
  = Some (mkClient OpenAIChat "gpt-4" 0.5 4096 (Some "key1") 600%float)
  /\ store (after (lib := no_environment_key) (UpdateCredential "key2")
              sample_state) !! 0%nat
     = Some (mkClient OpenAIChat "gpt-4" 0.5 4096 (Some "key1") 600%float).
Proof.
  split; [reflexivity|].
  apply (handles_stay_valid no_environment_key (UpdateCredential "key2")
           sample_state 0%nat).
  reflexivity.
Defined.

(** X6: no sequence of operations changes the provider identifier or the
    configuration record of an adapter, from any state. *)
Theorem provider_never_changes
    (lib : ClientLibrary) (ops : list operation) (σ : state) :
  model_type (self (after_all ops σ)) = model_type (self σ)
  /\ config (self (after_all ops σ)) = config (self σ).
Proof.
  revert σ. induction ops as [|op ops IH]; intros σ; [split; reflexivity|].
  change (after_all (op :: ops) σ) with (after_all ops (after op σ)).
  destruct (IH (after op σ)) as [-> ->].
  destruct (after_effect op σ) as (H1 & H2 & _). split; assumption.
Qed.

End AdapterProperties.

(** ** Sequences of operations on a constructed adapter *)

Section Sequences.

Import LLMModel.

Context {lib : ClientLibrary}.

(** One operation on an adapter with a supported provider. *)
Lemma after_supported op σ mt cfg :
  model_type (self σ) = Some mt ->
  config (self σ) = Some cfg ->
  supported mt ->
  after op σ
  = match op with
    | UpdateCredential k =>
        if builds mt cfg (Some k)
        then
          mkState
            (mkAttrs (Some mt) (Some cfg) (Some (Some k))
               (Some (length (store σ))))
            (store σ ++ [expected_client mt cfg (Some k)])
        else
          mkState
            (mkAttrs (Some mt) (Some cfg) (Some (Some k)) (model (self σ)))
            (store σ)
    | _ => σ
    end.
Proof.
  intros Hmt Hcfg Hs. destruct op as [|k|s]; cbn [after].
  - apply get_model_state.
  - unfold builds.
    destruct (constructor_error (expected_client mt cfg (Some k)))
      as [e|] eqn:Hb.
    + rewrite (update_api_key_refused σ mt cfg k e Hmt Hcfg Hs Hb).
      reflexivity.
    + rewrite (update_api_key_supported σ mt cfg k Hmt Hcfg Hs Hb).
      reflexivity.
  - apply process_response_state.
Qed.

(** What a sequence of operations leaves: the credential of the last update,
    one more object in the store for every update whose client was built,
    the handle on the newest object, which has the credential of the last
    such update, and the objects that were there before. *)
Lemma after_all_supported ops :
  forall σ mt cfg key built,
    model_type (self σ) = Some mt ->
    config (self σ) = Some cfg ->
    supported mt ->
    api_key (self σ) = Some key ->
    model (self σ) = Some (length (store σ) - 1)%nat ->
    client_api_key <$> last (store σ) = Some built ->
    api_key (self (after_all ops σ)) = Some (last_credential key ops)
    /\ length (store (after_all ops σ))
       = (length (store σ) + count_built mt cfg ops)%nat
    /\ model (self (after_all ops σ))
       = Some (length (store (after_all ops σ)) - 1)%nat
    /\ client_api_key <$> last (store (after_all ops σ))
       = Some (built_credential mt cfg built ops)
    /\ store σ `prefix_of` store (after_all ops σ).
Proof.
  induction ops as [|op ops IH];
    intros σ mt cfg key built Hmt Hcfg Hs Hkey Hm Hlast.
  { cbn. repeat split; try assumption; [lia | reflexivity]. }
  change (after_all (op :: ops) σ) with (after_all ops (after op σ)).
  rewrite (after_supported op σ mt cfg Hmt Hcfg Hs).
  destruct op as [|k|s].
  - apply (IH σ mt cfg key built); assumption.
  - change (last_credential key (UpdateCredential k :: ops))
      with (last_credential (Some k) ops).
    change (built_credential mt cfg built (UpdateCredential k :: ops))
      with (built_credential mt cfg
              (if builds mt cfg (Some k) then Some k else built) ops).
    change (count_built mt cfg (UpdateCredential k :: ops))
      with (if builds mt cfg (Some k)
            then S (count_built mt cfg ops) else count_built mt cfg ops).
    destruct (builds mt cfg (Some k)) eqn:Hb.
    + set (σ1 := mkState _ _).
      destruct (IH σ1 mt cfg (Some k) (Some k)) as (H1 & H2 & H3 & H4 & H5);
        try reflexivity; try assumption.
      { subst σ1. cbn. rewrite length_app. cbn. f_equal. lia. }
      { subst σ1. cbn. rewrite last_snoc. reflexivity. }
      split; [exact H1|]. split; [|split; [exact H3|split; [exact H4|]]].
      * rewrite H2. subst σ1. cbn. rewrite length_app. cbn. lia.
      * etrans; [|exact H5]. subst σ1. cbn. apply prefix_app_r. reflexivity.
    + set (σ1 := mkState _ _).
      destruct (IH σ1 mt cfg (Some k) built) as (H1 & H2 & H3 & H4 & H5);
        try reflexivity; try assumption.
      split; [exact H1|]. split; [exact H2|]. split; [exact H3|].
      split; [exact H4 | exact H5].
  - apply (IH σ mt cfg key built); assumption.
Qed.

End Sequences.

Section SequenceProperties.

Import LLMModel.

(** X7: on a constructed adapter, after any sequence of operations the
    stored credential is the one of the last [update_api_key] of the
    sequence, whether that update returned or raised, or the one given at
    construction when there was none; the handle refers to a client created
    with the credential of the last update for which the client constructor
    returned, or with the one given at construction. *)
Theorem credential_last_update
    (lib : ClientLibrary) (LLM_CONFIG : gmap string Config)
    (providerId : string) (cfg : Config) (credential : option string)
    (objects : list Client) (σ0 : state) (ops : list operation) :
  LLM_CONFIG !! providerId = Some cfg ->
  construct LLM_CONFIG providerId credential objects = Ok σ0 ->
  api_key (self (after_all ops σ0)) = Some (last_credential credential ops)
  /\ exists c,
       current_client (after_all ops σ0) = Some c
       /\ client_api_key c
          = built_credential providerId cfg credential ops.
Proof.
  intros Hcfg (cfg' & Hcfg' & Hs & _ & ->)%construct_Ok.
  assert (cfg' = cfg) as -> by congruence.
  destruct (after_all_supported ops
              (mkState
                 (mkAttrs (Some providerId) (Some cfg) (Some credential)
                    (Some (length objects)))
                 (objects ++ [expected_client providerId cfg credential]))
              providerId cfg credential credential)
    as (Hkey & Hlen & Hm & Hlast & _); try reflexivity; try assumption.
  { cbn. rewrite length_app. cbn. f_equal. lia. }
  { cbn. rewrite last_snoc. reflexivity. }
  split; [exact Hkey|].
  unfold current_client. rewrite Hm.
  rewrite last_lookup, <- Nat.sub_1_r in Hlast.
  change (Some (length (store ?s) - 1)%nat ≫= _) with
    (store s !! (length (store s) - 1)%nat).
  destruct (store _ !! _) as [c|]; [|discriminate].
  exists c. split; [reflexivity|]. cbn in Hlast. congruence.
Qed.

Lemma credential_last_update_witness :
  let ops := [UpdateCredential "key2"; GetClient;
              NormalizeResponseText cafe_text; UpdateCredential "";
              GetClient] in
  sample_config !! "gpt4" = Some (mkConfig "gpt-4" 0.5 4096)
  /\ construct (lib := no_environment_key) sample_config "gpt4"
       (Some "key1") []
     = Ok sample_state
  /\ api_key (self (after_all (lib := no_environment_key) ops sample_state))
     = Some (last_credential (Some "key1") ops)
  /\ exists c,
       current_client (after_all (lib := no_environment_key) ops sample_state)
       = Some c
       /\ client_api_key c
          = built_credential (lib := no_environment_key) "gpt4"
              (mkConfig "gpt-4" 0.5 4096) (Some "key1") ops.
Proof.
  intros ops. split; [reflexivity|]. split; [reflexivity|].
  apply (credential_last_update no_environment_key sample_config "gpt4"
           (mkConfig "gpt-4" 0.5 4096) (Some "key1") [] sample_state ops).
  - reflexivity.
  - reflexivity.
Defined.

(** X8: construction creates one client and every [update_api_key] for
    which the client constructor returns creates one more; an update whose
    constructor raises, [get_model] and [process_response] create none, and
    nothing removes any.  After a sequence of operations the store holds
    the objects it held before the construction, then these clients, and the
    handle is the position of the newest. *)
Theorem one_client_per_update
    (lib : ClientLibrary) (LLM_CONFIG : gmap string Config)
    (providerId : string) (cfg : Config) (credential : option string)
    (objects : list Client) (σ0 : state) (ops : list operation) :
  LLM_CONFIG !! providerId = Some cfg ->
  construct LLM_CONFIG providerId credential objects = Ok σ0 ->
  length (store (after_all ops σ0))
  = (length objects + 1 + count_built providerId cfg ops)%nat
  /\ model (self (after_all ops σ0))
     = Some (length objects + count_built providerId cfg ops)%nat
  /\ objects `prefix_of` store (after_all ops σ0).
Proof.
  intros Hcfg (cfg' & Hcfg' & Hs & _ & ->)%construct_Ok.
  assert (cfg' = cfg) as -> by congruence.
  destruct (after_all_supported ops
              (mkState
                 (mkAttrs (Some providerId) (Some cfg) (Some credential)
                    (Some (length objects)))
                 (objects ++ [expected_client providerId cfg credential]))
              providerId cfg credential credential)
    as (_ & Hlen & Hm & _ & Hpre); try reflexivity; try assumption.
  { cbn. rewrite length_app. cbn. f_equal. lia. }
  { cbn. rewrite last_snoc. reflexivity. }
  cbn [store] in Hlen, Hpre. rewrite length_app in Hlen. cbn in Hlen.
  split; [exact Hlen|]. split.
  - rewrite Hm, Hlen. f_equal. lia.
  - etrans; [|exact Hpre]. apply prefix_app_r. reflexivity.
Qed.

Lemma one_client_per_update_witness :
  let ops := [UpdateCredential "key2"; GetClient;
              NormalizeResponseText cafe_text; UpdateCredential "";
              GetClient] in
  sample_config !! "gpt4" = Some (mkConfig "gpt-4" 0.5 4096)
  /\ construct (lib := no_environment_key) sample_config "gpt4"
       (Some "key1") []
     = Ok sample_state
  /\ length (store (after_all (lib := no_environment_key) ops sample_state))
     = (length (A := Client) [] + 1
        + count_built (lib := no_environment_key) "gpt4"
            (mkConfig "gpt-4" 0.5 4096) ops)%nat
  /\ model (self (after_all (lib := no_environment_key) ops sample_state))
     = Some (length (A := Client) []
             + count_built (lib := no_environment_key) "gpt4"
                 (mkConfig "gpt-4" 0.5 4096) ops)%nat
  /\ [] `prefix_of`
       store (after_all (lib := no_environment_key) ops sample_state).
Proof.
  intros ops. split; [reflexivity|]. split; [reflexivity|].
  apply (one_client_per_update no_environment_key sample_config "gpt4"
           (mkConfig "gpt-4" 0.5 4096) (Some "key1") [] sample_state ops).
  - reflexivity.
  - reflexivity.
Defined.



End SequenceProperties.

(** ** Further properties of the normalisation *)

Section NormalisationProperties.

Import LLMModel.

Lemma is_special_false c :
  is_special c = false <->
  is_surrogate c = false /\ c <> EN_DASH /\ c <> EM_DASH.
Proof.
  unfold is_special. rewrite !orb_false_iff, !Z.eqb_neq. tauto.
Qed.

Lemma normalize_char_special c :
  is_special c = true ->
  exists d r, normalize_char c = d :: r /\ d <> c.
Proof.
  unfold is_special, normalize_char, is_surrogate,
    EN_DASH, EM_DASH, HYPHEN_MINUS, QUESTION_MARK.
  destruct (Z.leb_spec 0xD800 c); destruct (Z.leb_spec c 0xDFFF);
    cbn [andb orb];
    destruct (Z.eqb_spec c 0x2013); try lia;
    destruct (Z.eqb_spec c 0x2014); try lia;
    cbn [orb]; try discriminate; intros _;
    eexists _, _; (split; [reflexivity | lia]).
Qed.

(** A text is left as it is only when it has no special code point. *)
Lemma normalized_fixed_no_special s :
  normalized s = s -> Forall (fun c => is_special c = false) s.
Proof.
  unfold normalized. induction s as [|c s IH]; [constructor|].
  cbn [flat_map]. intros H.
  destruct (is_special c) eqn:Hsp.
  - destruct (normalize_char_special c Hsp) as (d & r & E & Hd).
    rewrite E in H. cbn in H. congruence.
  - apply is_special_false in Hsp as (Hs & Hen & Hem).
    unfold normalize_char in H. rewrite Hs in H.
    destruct (Z.eqb_spec c EN_DASH); [contradiction|].
    destruct (Z.eqb_spec c EM_DASH); [contradiction|].
    cbn in H. injection H as H. constructor.
    + apply is_special_false. repeat split; assumption.
    + apply IH, H.
Qed.

Lemma no_special_plain s :
  is_str s -> Forall (fun c => is_special c = false) s -> Forall is_plain s.
Proof.
  induction 1 as [|c s Hc Hs IH]; intros H; [constructor|].
  apply Forall_cons in H as [H1 H2]. constructor; [|apply IH, H2].
  apply is_special_false in H1. unfold is_plain. tauto.
Qed.

Lemma normalize_char_length c :
  length (normalize_char c)
  = if Z.eq_dec c EM_DASH then 2%nat else 1%nat.
Proof.
  unfold normalize_char, is_surrogate, EN_DASH, EM_DASH.
  destruct (Z.eq_dec c 0x2014) as [->|Hne]; [reflexivity|].
  destruct ((0xD800 <=? c) && (c <=? 0xDFFF)); [reflexivity|].
  destruct (c =? 0x2013); [reflexivity|].
  destruct (Z.eqb_spec c 0x2014); [contradiction | reflexivity].
Qed.

Lemma normalized_length s :
  length (normalized s) = (length s + count_occ Z.eq_dec s EM_DASH)%nat.
Proof.
  unfold normalized. induction s as [|c s IH]; [reflexivity|].
  cbn [flat_map length count_occ]. rewrite length_app, IH.
  rewrite normalize_char_length.
  destruct (Z.eq_dec c EM_DASH); lia.
Qed.

Lemma encode_char_length c bs :
  utf8_encode_char c = Some bs -> (1 <= length bs <= 4)%nat.
Proof.
  unfold utf8_encode_char.
  destruct (c <? 0x80); [intros [= <-]; cbn; lia|].
  destruct (c <? 0x800); [intros [= <-]; cbn; lia|].
  destruct (c <? 0x10000); [|intros [= <-]; cbn; lia].
  destruct (is_surrogate c); [discriminate|]. intros [= <-]. cbn. lia.
Qed.

Lemma encode_utf8_replace_length s :
  (length s <= length (encode_utf8_replace s) <= 4 * length s)%nat.
Proof.
  induction s as [|c s IH]; [cbn; lia|].
  cbn [encode_utf8_replace].
  destruct (utf8_encode_char c) as [bs|] eqn:E.
  - apply encode_char_length in E. rewrite length_app. cbn [length]. lia.
  - cbn [length]. lia.
Qed.

(** X10: [process_response] returns its input unchanged exactly when the
    input has no surrogate, no en dash and no em dash. *)
Theorem process_response_unchanged_iff (s : str) (σ : state) :
  is_str s ->
  process_response s σ = (Ok s, σ)
  <-> Forall
        (fun c => is_surrogate c = false /\ c <> EN_DASH /\ c <> EM_DASH) s.
Proof.
  intros Hs. rewrite (process_response_normalized s σ Hs). split.
  - intros [= H]. apply normalized_fixed_no_special in H.
    eapply Forall_impl; [exact H|]. intros c Hc. apply is_special_false, Hc.
  - intros H. f_equal. f_equal. apply normalized_fixpoint.
    apply no_special_plain; [exact Hs|].
    eapply Forall_impl; [exact H|]. intros c Hc. apply is_special_false, Hc.
Qed.

Lemma process_response_unchanged_iff_witness :
  is_str cafe_normalized
  /\ (process_response cafe_normalized sample_state
      = (Ok cafe_normalized, sample_state)
      <-> Forall
            (fun c => is_surrogate c = false /\ c <> EN_DASH /\ c <> EM_DASH)
            cafe_normalized).
Proof.
  assert (Hs : is_str cafe_normalized).
  { unfold cafe_normalized.
    repeat (apply Forall_cons_2; [unfold is_code_point; lia|]).
    apply Forall_nil_2. }
  split; [exact Hs|].
  apply (process_response_unchanged_iff cafe_normalized sample_state).
  exact Hs.
Defined.

(** X11: [process_response] works code point by code point: the result for
    a text cut in two pieces is the result for the first piece followed by
    the result for the second. *)
Theorem process_response_app (s t : str) (σ : state) :
  is_str s -> is_str t ->
  exists a b,
    process_response s σ = (Ok a, σ)
    /\ process_response t σ = (Ok b, σ)
    /\ process_response (s ++ t) σ = (Ok (a ++ b), σ).
Proof.
  intros Hs Ht. exists (normalized s), (normalized t).
  split; [apply process_response_normalized, Hs|].
  split; [apply process_response_normalized, Ht|].
  rewrite process_response_normalized by (apply Forall_app; split; assumption).
  rewrite normalized_app. reflexivity.
Qed.

Lemma process_response_app_witness :
  is_str [0x61; EM_DASH] /\ is_str [0xD800; EN_DASH; 0x62]
  /\ exists a b,
       process_response [0x61; EM_DASH] sample_state = (Ok a, sample_state)
       /\ process_response [0xD800; EN_DASH; 0x62] sample_state
          = (Ok b, sample_state)
       /\ process_response ([0x61; EM_DASH] ++ [0xD800; EN_DASH; 0x62])
            sample_state
          = (Ok (a ++ b), sample_state).
Proof.
  assert (Hs : is_str [0x61; EM_DASH]).
  { unfold EM_DASH.
    repeat (apply Forall_cons_2; [unfold is_code_point; lia|]).
    apply Forall_nil_2. }
  assert (Ht : is_str [0xD800; EN_DASH; 0x62]).
  { unfold EN_DASH.
    repeat (apply Forall_cons_2; [unfold is_code_point; lia|]).
    apply Forall_nil_2. }
  split; [exact Hs|]. split; [exact Ht|].
  apply (process_response_app [0x61; EM_DASH] [0xD800; EN_DASH; 0x62]
           sample_state); assumption.
Defined.

(** X12: the result of [process_response] is longer than its input by one
    code point for every em dash of the input, and by nothing else. *)
Theorem process_response_length (s : str) (σ : state) :
  is_str s ->
  exists out,
    process_response s σ = (Ok out, σ)
    /\ length out = (length s + count_occ Z.eq_dec s EM_DASH)%nat.
Proof.
  intros Hs. exists (normalized s).
  split; [apply process_response_normalized, Hs | apply normalized_length].
Qed.

Lemma process_response_length_witness :
  is_str cafe_text
  /\ exists out,
       process_response cafe_text sample_state = (Ok out, sample_state)
       /\ length out
          = (length cafe_text + count_occ Z.eq_dec cafe_text EM_DASH)%nat.
Proof.
  assert (Hs : is_str cafe_text).
  { unfold cafe_text, EN_DASH, EM_DASH.
    repeat (apply Forall_cons_2; [unfold is_code_point; lia|]).
    apply Forall_nil_2. }
  split; [exact Hs|].
  apply (process_response_length cafe_text sample_state). exact Hs.
Defined.

(** X13: the re-encoding step
    [s.encode('utf-8', errors='replace').decode('utf-8')] decodes without an
    error to a text of the same length that differs from [s] only where [s]
    has a surrogate, which has become ["?"]; a text without surrogates comes
    back as it was. *)
Theorem reencode_round_trip (s : str) :
  is_str s ->
  exists s',
    decode_utf8 (encode_utf8_replace s) = Some s'
    /\ length s' = length s
    /\ (forall (i : nat) c,
          s !! i = Some c ->
          s' !! i = Some (if is_surrogate c then QUESTION_MARK else c))
    /\ (Forall (fun c => is_surrogate c = false) s -> s' = s).
Proof.
  intros Hs. exists (map repaired s).
  split; [apply decode_encode_replace, Hs|].
  split; [apply length_map|]. split.
  - clear Hs. induction s as [|d s IH]; intros [|i] c Hi;
      try discriminate.
    + injection Hi as ->. reflexivity.
    + apply (IH i c Hi).
  - clear Hs. induction 1 as [|c s Hc _ IH]; [reflexivity|].
    cbn [map]. rewrite IH. unfold repaired. rewrite Hc. reflexivity.
Qed.

Lemma reencode_round_trip_witness :
  is_str mixed_text
  /\ exists s',
       decode_utf8 (encode_utf8_replace mixed_text)
       = Some s'
       /\ length s' = length mixed_text
       /\ (forall (i : nat) c,
             mixed_text !! i = Some c ->
             s' !! i = Some (if is_surrogate c then QUESTION_MARK else c))
       /\ (Forall (fun c => is_surrogate c = false)
             mixed_text ->
           s' = mixed_text).
Proof.
  assert (Hs : is_str mixed_text).
  { unfold mixed_text, cafe_text, EN_DASH, EM_DASH.
    repeat (apply Forall_cons_2; [unfold is_code_point; lia|]).
    apply Forall_nil_2. }
  split; [exact Hs|].
  apply (reencode_round_trip mixed_text). exact Hs.
Defined.

(** X14: the encoding step writes a byte string: every element is in
    [0 .. 255], and there are between one and four bytes for every code
    point of the text. *)
Theorem encode_utf8_replace_byte_string (s : str) :
  is_str s ->
  Forall (fun b => 0 <= b <= 255) (encode_utf8_replace s)
  /\ (length s <= length (encode_utf8_replace s) <= 4 * length s)%nat.
Proof.
  intros Hs. split.
  - apply encode_utf8_replace_bytes, Hs.
  - apply encode_utf8_replace_length.
Qed.

Lemma encode_utf8_replace_byte_string_witness :
  is_str mixed_text
  /\ Forall (fun b => 0 <= b <= 255)
       (encode_utf8_replace mixed_text)
  /\ (length mixed_text
      <= length (encode_utf8_replace mixed_text)
      <= 4 * length mixed_text)%nat.
Proof.
  assert (Hs : is_str mixed_text).
  { unfold mixed_text, cafe_text, EN_DASH, EM_DASH.
    repeat (apply Forall_cons_2; [unfold is_code_point; lia|]).
    apply Forall_nil_2. }
  split; [exact Hs|].
  apply (encode_utf8_replace_byte_string mixed_text).
  exact Hs.
Defined.

End NormalisationProperties.
